(** * Standardised survey format of matsim-berlin: [src/main/python/data.py]

    The development embeds the Python module [data.py]: the enumerated
    vocabulary, the two classifiers [DistanceGroup.cut] and
    [DurationGroup.cut], the count coercion [pint] and the normaliser
    [srv_to_standard].

    Python values are modelled as they reach the code from a pandas table:
    [int] as [Z] (unbounded), [float] as the kernel's binary64 [float],
    [str] as [string], the sequence of its code points, which the model
    takes below 256.  A Python exception is a value of [exn]; code that
    may raise returns a [result]. *)

From Stdlib Require Import ZArith List String Ascii Bool Lia.
From Stdlib Require Import Floats DecimalString.
From Stdlib Require DecimalPos DecimalZ.
Import ListNotations.

#[local] Set Warnings "-inexact-float".
#[local] Open Scope Z_scope.

(** ** Exceptions and results *)

(** The built-in exception classes the embedded code can raise. *)
Inductive exn : Type :=
| ValueError
| TypeError
| OverflowError
| KeyError
| IndexError.

(** [type(e).__name__] *)
Definition exn_name (e : exn) : string :=
  match e with
  | ValueError => "ValueError"
  | TypeError => "TypeError"
  | OverflowError => "OverflowError"
  | KeyError => "KeyError"
  | IndexError => "IndexError"
  end.

Inductive result (A : Type) : Type :=
| Ok (a : A)
| Raise (e : exn).

Arguments Ok {A} a.
Arguments Raise {A} e.

Definition bind {A B : Type} (r : result A) (k : A -> result B) : result B :=
  match r with
  | Ok a => k a
  | Raise e => Raise e
  end.

Declare Scope py_scope.
Delimit Scope py_scope with py.
Notation "x <- r ;; k" := (bind r (fun x => k))
  (at level 100, r at next level, right associativity) : py_scope.

Definition is_ok {A : Type} (r : result A) : bool :=
  match r with Ok _ => true | Raise _ => false end.

(** ** Python values *)

Inductive pyval : Type :=
| PInt (z : Z)
| PFloat (f : float)
| PStr (s : string)
| PBool (b : bool)
| PNone.

(** *** [int(x)] *)

(** [int] of a float truncates toward zero; [nan] raises [ValueError] and an
    infinity raises [OverflowError]. *)
Definition int_of_float (f : float) : result Z :=
  match Prim2SF f with
  | S754_nan => Raise ValueError
  | S754_infinity _ => Raise OverflowError
  | S754_zero _ => Ok 0
  | S754_finite s m e =>
      let mag := Z.shiftl (Zpos m) e in
      Ok (if s then - mag else mag)
  end.

(** The characters [int] skips around a number: tab, line feed, vertical
    tab, form feed, carriage return and space, and the two white-space
    characters above 127 of this range, NEL (133) and NBSP (160). *)
Definition is_space (c : ascii) : bool :=
  let n := nat_of_ascii c in
  ((9 <=? n) && (n <=? 13) || (n =? 32) || (n =? 133) || (n =? 160))%nat.

Definition digit_of (c : ascii) : option Z :=
  let n := nat_of_ascii c in
  if ((48 <=? n) && (n <=? 57))%nat then Some (Z.of_nat (n - 48)) else None.

Fixpoint lstrip (s : string) : string :=
  match s with
  | EmptyString => EmptyString
  | String c rest => if is_space c then lstrip rest else s
  end.

Fixpoint rev_string (s acc : string) : string :=
  match s with
  | EmptyString => acc
  | String c rest => rev_string rest (String c acc)
  end.

Definition strip (s : string) : string :=
  rev_string (lstrip (rev_string (lstrip s) EmptyString)) EmptyString.

(** Decimal digits, single underscores allowed between two digits.
    [prev] tells whether the character just read was a digit. *)
Fixpoint parse_digits (s : string) (acc : Z) (prev : bool) : option Z :=
  match s with
  | EmptyString => if prev then Some acc else None
  | String c rest =>
      match digit_of c with
      | Some d => parse_digits rest (10 * acc + d) true
      | None =>
          if (Ascii.eqb c "_" && prev)%bool then parse_digits rest acc false
          else None
      end
  end.

(** [sys.get_int_max_str_digits()], at its default: the most digits [int]
    reads from a string and [str] writes for an [int]. *)
Definition int_max_str_digits : Z := 4300.

(** The number of digit characters of [s]. *)
Fixpoint count_digits (s : string) : Z :=
  match s with
  | EmptyString => 0
  | String c rest =>
      match digit_of c with
      | Some _ => 1 + count_digits rest
      | None => count_digits rest
      end
  end.

(** [int] of a string, base 10: optional white space around an optional
    sign and a digit string of at most [int_max_str_digits] digits;
    anything else raises [ValueError]. *)
Definition int_of_str (s : string) : result Z :=
  let body := strip s in
  let '(neg, digits) :=
    match body with
    | String "-" rest => (true, rest)
    | String "+" rest => (false, rest)
    | _ => (false, body)
    end in
  match parse_digits digits 0 false with
  | Some n =>
      if int_max_str_digits <? count_digits digits then Raise ValueError
      else Ok (if neg then - n else n)
  | None => Raise ValueError
  end.

Definition py_int (x : pyval) : result Z :=
  match x with
  | PInt z => Ok z
  | PFloat f => int_of_float f
  | PStr s => int_of_str s
  | PBool b => Ok (if b then 1 else 0)
  | PNone => Raise TypeError
  end.

(** The decimal string of an [int]: what [str(n)] returns when it
    returns. *)
Definition py_str_int (n : Z) : string :=
  NilZero.string_of_int (Z.to_int n).

(** [str(n)] for an [int]: [ValueError] when [n] has more than
    [int_max_str_digits] digits. *)
Definition py_str (n : Z) : result string :=
  let s := py_str_int n in
  if int_max_str_digits <? count_digits s then Raise ValueError else Ok s.

(** *** [float(x)], [x + y], truth value, [x == n] *)

(** [float(n)] for an [int]: the nearest binary64 value (ties to even);
    [OverflowError] when [n] is beyond the largest finite float. *)
Definition float_of_int (n : Z) : result float :=
  match binary_normalize prec emax n 0 false with
  | S754_infinity _ => Raise OverflowError
  | sf => Ok (SF2Prim sf)
  end.

Definition bool_to_Z (b : bool) : Z := if b then 1 else 0.

(** [x + y] on the values a table cell can hold. *)
Definition py_add (x y : pyval) : result pyval :=
  match x, y with
  | PInt a, PInt b => Ok (PInt (a + b))
  | PInt a, PBool b => Ok (PInt (a + bool_to_Z b))
  | PBool a, PInt b => Ok (PInt (bool_to_Z a + b))
  | PBool a, PBool b => Ok (PInt (bool_to_Z a + bool_to_Z b))
  | PFloat a, PFloat b => Ok (PFloat (a + b)%float)
  | PInt a, PFloat b =>
      (fa <- float_of_int a ;; Ok (PFloat (fa + b)%float))%py
  | PFloat a, PInt b =>
      (fb <- float_of_int b ;; Ok (PFloat (a + fb)%float))%py
  | PBool a, PFloat b =>
      (fa <- float_of_int (bool_to_Z a) ;; Ok (PFloat (fa + b)%float))%py
  | PFloat a, PBool b =>
      (fb <- float_of_int (bool_to_Z b) ;; Ok (PFloat (a + fb)%float))%py
  | PStr a, PStr b => Ok (PStr (a ++ b))
  | _, _ => Raise TypeError
  end.

(** [bool(x)], as used by [... if x else ...] *)
Definition truthy (x : pyval) : bool :=
  match x with
  | PInt z => negb (z =? 0)
  | PFloat f => negb (f =? 0)%float
  | PStr s => negb (String.eqb s EmptyString)
  | PBool b => b
  | PNone => false
  end.

(** [x == n] and [x != n] for an [int] literal [n] *)
Definition py_eq_int (x : pyval) (n : Z) : bool :=
  match x with
  | PInt z => z =? n
  | PFloat f =>
      match float_of_int n with
      | Ok fn => (f =? fn)%float
      | Raise _ => false
      end
  | PBool b => bool_to_Z b =? n
  | PStr _ | PNone => false
  end.

Definition py_ne_int (x : pyval) (n : Z) : bool := negb (py_eq_int x n).

(** ** [pint] *)

(** [def pint(x): return max(0, int(x))] *)
Definition pint (x : pyval) : result Z :=
  (n <- py_int x ;; Ok (Z.max 0 n))%py.

(** ** The part of numpy the classifiers use

    Arrays are one-dimensional: a sequence of values becomes a [list].
    An array of numbers has dtype float64 here; numpy converts an array of
    Python ints to float64 before it compares it with float bins, and that
    conversion is exact for the integers the tables hold. *)

(** [np.digitize(x, bins, right=True)] for increasing [bins], one value:
    the index [i] with [bins[i-1] < x <= bins[i]], [0] when [x <= bins[0]]
    and [len(bins)] when [x] is above every bin (or is [nan]). *)
Fixpoint digitize_right (bins : list float) (x : float) : nat :=
  match bins with
  | [] => O
  | b :: rest => if (x <=? b)%float then O else S (digitize_right rest x)
  end.

Definition np_digitize (values bins : list float) : list nat :=
  map (digitize_right bins) values.

(** The boundary tables [digitize_right] stands for [np.digitize] on: no
    [nan], and every boundary at most the next one. *)
Fixpoint increasing (bins : list float) : bool :=
  match bins with
  | [] => true
  | a :: rest =>
      (a =? a)%float
      && match rest with [] => true | b :: _ => (a <=? b)%float end
      && increasing rest
  end.

(** [values <= 0]: the element-wise comparison, a boolean array. *)
Definition np_le0 (values : list float) : list bool :=
  map (fun v => (v <=? 0)%float) values.

(** [np.where(mask)]: the positions that hold [True], ascending. *)
Fixpoint where_from (n : nat) (mask : list bool) : list nat :=
  match mask with
  | [] => []
  | b :: rest =>
      if b then n :: where_from (S n) rest else where_from (S n) rest
  end.

Definition np_where (mask : list bool) : list nat := where_from O mask.

(** [a[p] = v] for one position; numpy raises [IndexError] out of range. *)
Fixpoint set_item (a : list nat) (p : nat) (v : nat) : result (list nat) :=
  match a, p with
  | [], _ => Raise IndexError
  | _ :: t, O => Ok (v :: t)
  | h :: t, S p' => (t' <- set_item t p' v ;; Ok (h :: t'))%py
  end.

(** [a[positions] = v]: assignment through an index array. *)
Fixpoint set_items (a : list nat) (positions : list nat) (v : nat)
  : result (list nat) :=
  match positions with
  | [] => Ok a
  | p :: rest => (a' <- set_item a p v ;; set_items a' rest v)%py
  end.

(** [np.take(arr, idx, axis=0)] with the default [mode='raise']. *)
Fixpoint np_take {A : Type} (arr : list A) (idx : list nat) : result (list A) :=
  match idx with
  | [] => Ok []
  | i :: rest =>
      match nth_error arr i with
      | Some a => (l <- np_take arr rest ;; Ok (a :: l))%py
      | None => Raise IndexError
      end
  end.

(** ** Enumerated vocabulary *)

Module ParkingPosition.
Inductive t : Type := PRIVATE | PUBLIC | DIFFERENT | NA.
End ParkingPosition.

Module HouseholdType.
Inductive t : Type := MULTI_W_CHILDREN | MULTI_WO_CHILDREN | SINGLE.
End HouseholdType.

Module EconomicStatus.
Inductive t : Type := VERY_LOW | LOW | MEDIUM | HIGH | VERY_HIGH | UNKNOWN.
End EconomicStatus.

Module Gender.
Inductive t : Type := M | F | OTHER.
End Gender.

Module Employment.
Inductive t : Type :=
| CHILD | HOMEMAKER | RETIREE | UNEMPLOYED | SCHOOL | STUDENT | TRAINEE
| JOB_FULL_TIME | JOB_PART_TIME | OTHER.
End Employment.

Module Availability.
Inductive t : Type := YES | NO | UNKNOWN.

(** [a == Availability.YES] *)
Definition is_yes (a : t) : bool :=
  match a with YES => true | _ => false end.
End Availability.

Module Purpose.
Inductive t : Type :=
| WORK | WORK_BUSINESS | EDU_PRIMARY | EDU_HIGHER | EDU_OTHER | SHOP_FOOD
| SHOP_OTHER | PERSONAL_BUSINESS | TRANSPORT | LEISURE | DINING
| OUTSIDE_RECREATION | VISIT | HOME | OTHER.
End Purpose.

Module TripMode.
Inductive t : Type := WALK | BIKE | CAR | RIDE | PT | OTHER.
End TripMode.

Module SourceDestinationGroup.
Inductive t : Type :=
| HOME_WORK | HOME_CHILDCARE | HOME_EDU | HOME_BUSINESS | HOME_SHOP
| HOME_LEISURE | HOME_OTHER | WORK_HOME | CHILDCARE_HOME | EDU_HOME
| BUSINESS_HOME | SHOP_HOME | LEISURE_HOME | OTHER_HOME | OTHER_WORK
| WORK_OTHER | OTHER_OTHER | UNKNOWN.

(** [self.name] *)
Definition name (g : t) : string :=
  match g with
  | HOME_WORK => "HOME_WORK" | HOME_CHILDCARE => "HOME_CHILDCARE"
  | HOME_EDU => "HOME_EDU" | HOME_BUSINESS => "HOME_BUSINESS"
  | HOME_SHOP => "HOME_SHOP" | HOME_LEISURE => "HOME_LEISURE"
  | HOME_OTHER => "HOME_OTHER" | WORK_HOME => "WORK_HOME"
  | CHILDCARE_HOME => "CHILDCARE_HOME" | EDU_HOME => "EDU_HOME"
  | BUSINESS_HOME => "BUSINESS_HOME" | SHOP_HOME => "SHOP_HOME"
  | LEISURE_HOME => "LEISURE_HOME" | OTHER_HOME => "OTHER_HOME"
  | OTHER_WORK => "OTHER_WORK" | WORK_OTHER => "WORK_OTHER"
  | OTHER_OTHER => "OTHER_OTHER" | UNKNOWN => "UNKNOWN"
  end.

Definition source (g : t) : Purpose.t :=
  if prefix "HOME" (name g) then Purpose.HOME
  else if prefix "WORK" (name g) then Purpose.WORK
  else Purpose.OTHER.

End SourceDestinationGroup.

(** ** Classifiers *)

Module DistanceGroup.

Inductive t : Type :=
| ZERO | G_500M | G_1KM | G_2KM | G_3KM | G_5KM | G_10KM | G_25KM | G_50KM
| G_100KM | OVER_100KM.

(** [np.asarray(DistanceGroup, dtype=object)]: the members in declaration
    order. *)
Definition members : list t :=
  [ZERO; G_500M; G_1KM; G_2KM; G_3KM; G_5KM; G_10KM; G_25KM; G_50KM;
   G_100KM; OVER_100KM].

Definition bins : list float :=
  [0; 0.5; 1; 2; 3; 5; 10; 25; 50; 100]%float.

(** The body of [cut], with the local table [bins] as an argument. *)
Definition cut_with (bins : list float) (values : list float)
  : result (list t) :=
  let idx := np_digitize values bins in
  (* Set ZERO group manually *)
  (idx <- set_items idx (np_where (np_le0 values)) O ;;
   np_take members idx)%py.

Definition cut (values : list float) : result (list t) :=
  cut_with bins values.

End DistanceGroup.

Module DurationGroup.

Inductive t : Type :=
| G_5MIN | G_15MIN | G_30MIN | G_60MIN | G_120MIN | G_180MIN | G_300MIN
| G_420MIN | G_480MIN | G_510MIN | G_570MIN | G_660MIN | G_750MIN
| REST_OF_DAY.

Definition members : list t :=
  [G_5MIN; G_15MIN; G_30MIN; G_60MIN; G_120MIN; G_180MIN; G_300MIN;
   G_420MIN; G_480MIN; G_510MIN; G_570MIN; G_660MIN; G_750MIN;
   REST_OF_DAY].

Definition bins : list float :=
  [5; 15; 30; 60; 120; 180; 300; 420; 480; 510; 570; 660; 750]%float.

Definition cut (values : list float) : result (list t) :=
  let idx := np_digitize values bins in
  np_take members idx.

End DurationGroup.

(** ** Entity model *)

Module Household.
Record t : Type := mk {
  hh_id : string;
  h_weight : pyval;
  n_persons : Z;
  n_cars : Z;
  n_bikes : Z;
  n_other_vehicles : Z;
  car_parking : ParkingPosition.t;
  economic_status : EconomicStatus.t;
  type : HouseholdType.t;
  location : pyval;
  regionType : Z
}.
End Household.

Module Person.
Record t : Type := mk {
  p_id : string;
  p_weight : pyval;
  hh : string;
  age : Z;
  gender : Gender.t;
  restricted_mobility : bool;
  employment : Employment.t;
  driving_license : Availability.t;
  car_avail : Availability.t;
  bike_avail : Availability.t;
  pt_abo_avail : Availability.t;
  mobile_on_day : bool;
  present_on_day : bool
}.
End Person.

Module Trip.
Record t : Type := mk {
  t_id : string;
  t_weight : pyval;
  p_id : string;
  n : Z;
  day_of_week : Z;
  departure : Z;
  duration : Z;
  gis_length : float;
  main_mode : TripMode.t;
  purpose : Purpose.t;
  sd_group : SourceDestinationGroup.t;
  valid : bool
}.
End Trip.

Module Activity.
Record t : Type := mk {
  a_id : string;
  p_id : string;
  n : Z;
  type : Purpose.t;
  duration : Z;
  leg_dist : Z;
  leg_mode : TripMode.t
}.
End Activity.

(** ** Raw SrV tables

    One record per row of [H2018.csv], [P2018.csv] and [W2018.csv], with the
    columns [srv_to_standard] reads; a cell holds whatever [read_csv]
    parsed.  [itertuples] hands the cells on as Python scalars.  A frame
    that lacks one of these columns is outside the model. *)

Module HRow.
Record t : Type := mk {
  HHNR : pyval;
  GEWICHT_HH : pyval;
  V_ANZ_PERS : pyval;
  V_ANZ_PKW_PRIV : pyval;
  V_ANZ_PKW_DIENST : pyval;
  V_ANZ_RAD : pyval;
  V_ANZ_ERAD : pyval;
  V_ANZ_MOT125 : pyval;
  V_ANZ_MOPMOT : pyval;
  V_ANZ_SONST : pyval;
  V_STELLPL1 : pyval;
  V_EINK : pyval;
  E_HHTYP : pyval;
  ST_CODE_NAME : pyval
}.
End HRow.

Module PRow.
Record t : Type := mk {
  HHNR : pyval;
  PNR : pyval;
  GEWICHT_P : pyval;
  V_ALTER : pyval;
  V_GESCHLECHT : pyval;
  V_EINSCHR_NEIN : pyval;
  V_ERW : pyval;
  V_FUEHR_PKW : pyval;
  V_PKW_VERFUEG : pyval;
  V_RAD_VERFUEG : pyval;
  V_ERAD_VERFUEG : pyval;
  V_FK_VERFUEG : pyval;
  V_WOHNUNG : pyval;
  V_WOHNORT : pyval
}.
End PRow.

Module TRow.
Record t : Type := mk {
  HHNR : pyval;
  PNR : pyval;
  WNR : pyval;
  GEWICHT_W : pyval;
  STICHTAG_WTAG : pyval;
  E_BEGINN : pyval;
  E_DAUER : pyval;
  GIS_LAENGE : pyval;
  E_HVM : pyval;
  V_ZWECK : pyval;
  E_QZG_17 : pyval;
  E_WEG_GUELTIG : pyval
}.
End TRow.

(** ** The code translator interface

    [converter.SrV2018] is imported by [srv_to_standard] and lives in
    another module; its static methods are taken as given.  Each is a
    function of its arguments that returns a member or raises. *)

Record Converter : Type := {
  gender : pyval -> result Gender.t;
  employment : pyval -> result Employment.t;
  yes_no : pyval -> result Availability.t;
  veh_avail : pyval -> result Availability.t;
  parking_position : pyval -> result ParkingPosition.t;
  economic_status : pyval -> list Person.t -> result EconomicStatus.t;
  household_type : pyval -> result HouseholdType.t;
  trip_mode : pyval -> result TripMode.t;
  trip_purpose : pyval -> result Purpose.t;
  sd_group : Z -> result SourceDestinationGroup.t
}.

(** ** The part of pandas the normaliser uses

    A [DataFrame] built from a list of dataclass records is modelled by the
    list of the records it was built from, in order; the index column
    stays a field of the record.  The type pandas infers for each column
    when it builds the frame is not modelled: it leaves the identifiers
    and the computed fields as the record has them, and can convert a
    cell taken from the raw row as it is ([h_weight], [location],
    [p_weight], [t_weight]) to the type of its column.  A returned record
    therefore stands for the record the loop appended; statements that
    depend on those four fields of a returned row are statements about
    the appended records. *)

(** [pd.DataFrame(records).set_index(col)].  A frame built from an empty
    list has no columns, so [set_index] raises [KeyError]; otherwise the
    frame is returned with [col] as index.  [verify_integrity] is left at
    its default [False]: index values are not compared with each other. *)
Definition set_index {A : Type} (records : list A) : result (list A) :=
  match records with
  | [] => Raise KeyError
  | _ :: _ => Ok records
  end.

(** [ps[ps.hh == hh_id]]: the rows of [ps] whose column [hh] equals
    [hh_id], in order. *)
Definition select_hh (ps : list Person.t) (hh_id : string) : list Person.t :=
  filter (fun p => String.eqb (Person.hh p) hh_id) ps.

(** ** The store [srv_to_standard] runs in

    [data] is the tuple of the three raw frames the caller passes (by
    reference); [ps], [hhs] and [ts] are the function's local lists. *)

Record Tables : Type := {
  hh_table : list HRow.t;
  pp_table : list PRow.t;
  tt_table : list TRow.t
}.

Record Store : Type := {
  data : Tables;
  loc_ps : list Person.t;
  loc_hhs : list Household.t;
  loc_ts : list Trip.t
}.

Definition M (A : Type) : Type := Store -> result A * Store.

Definition ret {A : Type} (a : A) : M A := fun s => (Ok a, s).

Definition mbind {A B : Type} (m : M A) (k : A -> M B) : M B :=
  fun s =>
    match m s with
    | (Ok a, s') => k a s'
    | (Raise e, s') => (Raise e, s')
    end.

Definition lift {A : Type} (r : result A) : M A := fun s => (r, s).

Declare Scope st_scope.
Delimit Scope st_scope with st.
Notation "x <- m ;; k" := (mbind m (fun x => k))
  (at level 100, m at next level, right associativity) : st_scope.
Notation "m ;; k" := (mbind m (fun _ => k))
  (at level 100, right associativity) : st_scope.

(** [hh.itertuples()], [pp.itertuples()], [tt.itertuples()] *)
Definition itertuples_hh : M (list HRow.t) :=
  fun s => (Ok (hh_table (data s)), s).
Definition itertuples_pp : M (list PRow.t) :=
  fun s => (Ok (pp_table (data s)), s).
Definition itertuples_tt : M (list TRow.t) :=
  fun s => (Ok (tt_table (data s)), s).

(** Reading, binding and appending to the locals. *)
Definition read_ps : M (list Person.t) := fun s => (Ok (loc_ps s), s).
Definition read_hhs : M (list Household.t) := fun s => (Ok (loc_hhs s), s).
Definition read_ts : M (list Trip.t) := fun s => (Ok (loc_ts s), s).

Definition assign_ps (l : list Person.t) : M unit :=
  fun s => (Ok tt, {| data := data s; loc_ps := l;
                      loc_hhs := loc_hhs s; loc_ts := loc_ts s |}).
Definition assign_hhs (l : list Household.t) : M unit :=
  fun s => (Ok tt, {| data := data s; loc_ps := loc_ps s;
                      loc_hhs := l; loc_ts := loc_ts s |}).
Definition assign_ts (l : list Trip.t) : M unit :=
  fun s => (Ok tt, {| data := data s; loc_ps := loc_ps s;
                      loc_hhs := loc_hhs s; loc_ts := l |}).

Definition append_ps (x : Person.t) : M unit :=
  fun s => assign_ps (loc_ps s ++ [x]) s.
Definition append_hhs (x : Household.t) : M unit :=
  fun s => assign_hhs (loc_hhs s ++ [x]) s.
Definition append_ts (x : Trip.t) : M unit :=
  fun s => assign_ts (loc_ts s ++ [x]) s.

(** [for r in rows: body] *)
Fixpoint for_rows {R : Type} (rows : list R) (body : R -> M unit) : M unit :=
  match rows with
  | [] => ret tt
  | r :: rest => (body r ;; for_rows rest body)%st
  end.

(** ** The normaliser *)

Section Normalizer.

(** [from converter import SrV2018] *)
Variable SrV2018 : Converter.

(** [float(s)] for a [str]: the interpreter's decimal-to-binary64
    conversion, taken as given. *)
Variable float_of_str : string -> result float.

Definition py_float (x : pyval) : result float :=
  match x with
  | PInt z => float_of_int z
  | PFloat f => Ok f
  | PStr s => float_of_str s
  | PBool b => float_of_int (bool_to_Z b)
  | PNone => Raise TypeError
  end.

(** [Availability.YES if veh_avail(p.V_RAD_VERFUEG) == YES
     or veh_avail(p.V_ERAD_VERFUEG) == YES else veh_avail(p.V_RAD_VERFUEG)] *)
Definition bike_or_ebike (p : PRow.t) : result Availability.t :=
  (a <- veh_avail SrV2018 (PRow.V_RAD_VERFUEG p) ;;
   if Availability.is_yes a then Ok Availability.YES
   else
     b <- veh_avail SrV2018 (PRow.V_ERAD_VERFUEG p) ;;
     if Availability.is_yes b then Ok Availability.YES
     else veh_avail SrV2018 (PRow.V_RAD_VERFUEG p))%py.

(** The [Person(...)] expression of the first loop; the arguments are
    evaluated left to right. *)
Definition person_of_row (p : PRow.t) : result Person.t :=
  (hhnr <- py_int (PRow.HHNR p) ;;
   s_hhnr <- py_str hhnr ;;
   pnr <- py_int (PRow.PNR p) ;;
   s_pnr <- py_str pnr ;;
   let p_id := (s_hhnr ++ "_" ++ s_pnr)%string in
   hhnr' <- py_int (PRow.HHNR p) ;;
   hh <- py_str hhnr' ;;
   age <- py_int (PRow.V_ALTER p) ;;
   g <- gender SrV2018 (PRow.V_GESCHLECHT p) ;;
   let restricted := if truthy (PRow.V_EINSCHR_NEIN p) then false else true in
   emp <- employment SrV2018 (PRow.V_ERW p) ;;
   lic <- yes_no SrV2018 (PRow.V_FUEHR_PKW p) ;;
   car <- veh_avail SrV2018 (PRow.V_PKW_VERFUEG p) ;;
   bike <- bike_or_ebike p ;;
   abo <- veh_avail SrV2018 (PRow.V_FK_VERFUEG p) ;;
   Ok (Person.mk p_id (PRow.GEWICHT_P p) hh age g restricted emp lic car
         bike abo (py_eq_int (PRow.V_WOHNUNG p) 1)
         (py_eq_int (PRow.V_WOHNORT p) 1)))%py.

(** The body of the second loop: [hh_id = str(int(h.HHNR))] and the
    [Household(...)] expression; [ps] is the person frame. *)
Definition household_of_row (ps : list Person.t) (h : HRow.t)
  : result Household.t :=
  (hhnr <- py_int (HRow.HHNR h) ;;
   hh_id <- py_str hhnr ;;
   n_persons <- pint (HRow.V_ANZ_PERS h) ;;
   cars <- py_add (HRow.V_ANZ_PKW_PRIV h) (HRow.V_ANZ_PKW_DIENST h) ;;
   n_cars <- pint cars ;;
   bikes <- py_add (HRow.V_ANZ_RAD h) (HRow.V_ANZ_ERAD h) ;;
   n_bikes <- pint bikes ;;
   mot <- py_add (HRow.V_ANZ_MOT125 h) (HRow.V_ANZ_MOPMOT h) ;;
   other <- py_add mot (HRow.V_ANZ_SONST h) ;;
   n_other <- pint other ;;
   parking <- parking_position SrV2018 (HRow.V_STELLPL1 h) ;;
   econ <- economic_status SrV2018 (HRow.V_EINK h) (select_hh ps hh_id) ;;
   ty <- household_type SrV2018 (HRow.E_HHTYP h) ;;
   Ok (Household.mk hh_id (HRow.GEWICHT_HH h) n_persons n_cars n_bikes
         n_other parking econ ty (HRow.ST_CODE_NAME h) 0))%py.

(** The [Trip(...)] expression of the third loop. *)
Definition trip_of_row (t : TRow.t) : result Trip.t :=
  (hhnr <- py_int (TRow.HHNR t) ;;
   s_hhnr <- py_str hhnr ;;
   pnr <- py_int (TRow.PNR t) ;;
   s_pnr <- py_str pnr ;;
   wnr <- py_int (TRow.WNR t) ;;
   s_wnr <- py_str wnr ;;
   let t_id := (s_hhnr ++ "_" ++ s_pnr ++ "_" ++ s_wnr)%string in
   hhnr' <- py_int (TRow.HHNR t) ;;
   s_hhnr' <- py_str hhnr' ;;
   pnr' <- py_int (TRow.PNR t) ;;
   s_pnr' <- py_str pnr' ;;
   let p_id := (s_hhnr' ++ "_" ++ s_pnr')%string in
   n <- py_int (TRow.WNR t) ;;
   dow <- py_int (TRow.STICHTAG_WTAG t) ;;
   dep <- py_int (TRow.E_BEGINN t) ;;
   dur <- py_int (TRow.E_DAUER t) ;;
   len <- py_float (TRow.GIS_LAENGE t) ;;
   mode <- trip_mode SrV2018 (TRow.E_HVM t) ;;
   purp <- trip_purpose SrV2018 (TRow.V_ZWECK t) ;;
   code <- py_int (TRow.E_QZG_17 t) ;;
   sd <- sd_group SrV2018 code ;;
   Ok (Trip.mk t_id (TRow.GEWICHT_W t) p_id n dow dep dur len mode purp sd
         (py_ne_int (TRow.E_WEG_GUELTIG t) 0)))%py.

Definition srv_to_standard
  : M (list Household.t * list Person.t * list Trip.t) :=
  (assign_ps [] ;;
   rows <- itertuples_pp ;;
   for_rows rows (fun p => x <- lift (person_of_row p) ;; append_ps x) ;;
   l <- read_ps ;;
   df <- lift (set_index l) ;;
   assign_ps df ;;
   assign_hhs [] ;;
   rows <- itertuples_hh ;;
   for_rows rows (fun h =>
     ps <- read_ps ;;
     x <- lift (household_of_row ps h) ;;
     append_hhs x) ;;
   assign_ts [] ;;
   rows <- itertuples_tt ;;
   for_rows rows (fun t => x <- lift (trip_of_row t) ;; append_ts x) ;;
   hhs <- read_hhs ;;
   hh_df <- lift (set_index hhs) ;;
   ps <- read_ps ;;
   ts <- read_ts ;;
   t_df <- lift (set_index ts) ;;
   ret (hh_df, ps, t_df))%st.

(** A call [srv_to_standard(data)]: the locals start unbound; the caller
    sees the returned value (or the exception) and the frames it passed. *)
Definition call_srv_to_standard (d : Tables)
  : result (list Household.t * list Person.t * list Trip.t) * Tables :=
  let '(r, s) :=
    srv_to_standard {| data := d; loc_ps := []; loc_hhs := []; loc_ts := [] |} in
  (r, data s).

End Normalizer.

(** ** Reading the classifiers value by value *)

(** The label [DistanceGroup.cut_with bins] gives one value: the ZERO slot
    for [v <= 0], the slot [np.digitize] finds otherwise. *)
Definition distance_slot (bins : list float) (v : float) : nat :=
  if (v <=? 0)%float then O else digitize_right bins v.

Definition distance_label (v : float) : DistanceGroup.t :=
  nth (distance_slot DistanceGroup.bins v) DistanceGroup.members
    DistanceGroup.OVER_100KM.

Definition duration_label (v : float) : DurationGroup.t :=
  nth (digitize_right DurationGroup.bins v) DurationGroup.members
    DurationGroup.REST_OF_DAY.

(** [idx] after [idx[np.where(mask)] = v], element by element. *)
Definition masked (idx : list nat) (mask : list bool) (v : nat) : list nat :=
  map (fun im : nat * bool => if snd im then v else fst im) (combine idx mask).

(** ** Properties of the returned collections, as the specification words
    them *)

(** Every Person's household identifier is the identifier of a Household,
    and every Trip's person identifier is the identifier of a Person. *)
Definition referential_integrity
  (out : list Household.t * list Person.t * list Trip.t) : Prop :=
  let '(hhs, ps, ts) := out in
  (forall p, In p ps -> In (Person.hh p) (map Household.hh_id hhs)) /\
  (forall t, In t ts -> In (Trip.p_id t) (map Person.p_id ps)).

(** No two records of a collection carry the same identifier. *)
Definition unique_ids
  (out : list Household.t * list Person.t * list Trip.t) : Prop :=
  let '(hhs, ps, ts) := out in
  NoDup (map Household.hh_id hhs) /\ NoDup (map Person.p_id ps) /\
  NoDup (map Trip.t_id ts).

(** The identifiers [srv_to_standard] derives from one raw row. *)
Definition hh_id_of_row (h : HRow.t) : result string :=
  (n <- py_int (HRow.HHNR h) ;; py_str n)%py.

Definition p_id_of_row (p : PRow.t) : result string :=
  (h <- py_int (PRow.HHNR p) ;; sh <- py_str h ;;
   n <- py_int (PRow.PNR p) ;; sn <- py_str n ;;
   Ok (sh ++ "_" ++ sn)%string)%py.

Definition hh_of_row (p : PRow.t) : result string :=
  (h <- py_int (PRow.HHNR p) ;; py_str h)%py.

Definition t_id_of_row (t : TRow.t) : result string :=
  (h <- py_int (TRow.HHNR t) ;; sh <- py_str h ;;
   n <- py_int (TRow.PNR t) ;; sn <- py_str n ;;
   w <- py_int (TRow.WNR t) ;; sw <- py_str w ;;
   Ok (sh ++ "_" ++ sn ++ "_" ++ sw)%string)%py.

Definition trip_p_id_of_row (t : TRow.t) : result string :=
  (h <- py_int (TRow.HHNR t) ;; sh <- py_str h ;;
   n <- py_int (TRow.PNR t) ;; sn <- py_str n ;;
   Ok (sh ++ "_" ++ sn)%string)%py.

(** The rows a loop converts before it stops, and the exception that
    stops it, if any. *)
Fixpoint collect {R A : Type} (f : R -> result A) (rows : list R)
  : list A * option exn :=
  match rows with
  | [] => ([], None)
  | r :: rest =>
      match f r with
      | Ok a => let '(l, e) := collect f rest in (a :: l, e)
      | Raise e => ([], Some e)
      end
  end.

(** What a loop that stopped with [e] hands on. *)
Definition loop_result (e : option exn) : result unit :=
  match e with None => Ok tt | Some x => Raise x end.

(** [collect] when no row raises. *)
Fixpoint traverse {R A : Type} (f : R -> result A) (rows : list R)
  : result (list A) :=
  match rows with
  | [] => Ok []
  | r :: rest =>
      (a <- f r ;; l <- traverse f rest ;; Ok (a :: l))%py
  end.

(** The value of a call [srv_to_standard(data)], read off its three loops
    (see [call_srv_to_standard_eq]). *)
Definition srv_to_standard_value (S : Converter)
  (float_of_str : string -> result float) (d : Tables)
  : result (list Household.t * list Person.t * list Trip.t) :=
  (ps <- traverse (person_of_row S) (pp_table d) ;;
   ps <- set_index ps ;;
   hhs <- traverse (household_of_row S ps) (hh_table d) ;;
   ts <- traverse (trip_of_row S float_of_str) (tt_table d) ;;
   hh_df <- set_index hhs ;;
   t_df <- set_index ts ;;
   Ok (hh_df, ps, t_df))%py.

(** Every row converts on its own and no table is empty: [ps], [hhs] and
    [ts] are the records of the person, household and trip rows, row by
    row. *)
Definition converts_rowwise (S : Converter)
  (float_of_str : string -> result float) (d : Tables)
  (out : list Household.t * list Person.t * list Trip.t) : Prop :=
  let '(hhs, ps, ts) := out in
  Forall2 (fun r a => person_of_row S r = Ok a) (pp_table d) ps /\
  Forall2 (fun r a => household_of_row S ps r = Ok a) (hh_table d) hhs /\
  Forall2 (fun r a => trip_of_row S float_of_str r = Ok a) (tt_table d) ts /\
  hhs <> [] /\ ps <> [] /\ ts <> [].

(** The raw tables are referentially consistent: the household identifier
    derived from each person row is derived from some household row, and
    the person identifier derived from each trip row is derived from some
    person row. *)
Definition rows_reference (d : Tables) : Prop :=
  (forall p, In p (pp_table d) ->
     exists h, In h (hh_table d) /\ hh_of_row p = hh_id_of_row h) /\
  (forall t, In t (tt_table d) ->
     exists p, In p (pp_table d) /\ trip_p_id_of_row t = p_id_of_row p).

(** Bike-or-e-bike availability of the Person [P] made from the row [p]:
    YES when the translation of the bike code or of the e-bike code is YES,
    the translation of the bike code otherwise. *)
Definition or_over_yes (S : Converter) (p : PRow.t) (P : Person.t) : Prop :=
  (veh_avail S (PRow.V_RAD_VERFUEG p) = Ok Availability.YES \/
   veh_avail S (PRow.V_ERAD_VERFUEG p) = Ok Availability.YES ->
   Person.bike_avail P = Availability.YES) /\
  (veh_avail S (PRow.V_RAD_VERFUEG p) <> Ok Availability.YES ->
   veh_avail S (PRow.V_ERAD_VERFUEG p) <> Ok Availability.YES ->
   veh_avail S (PRow.V_RAD_VERFUEG p) = Ok (Person.bike_avail P)).

(** The Household [H] made from the row [h] has the economic status the
    translator gives for the income code of [h] and the Persons of [ps]
    whose household identifier is the identifier of [H]. *)
Definition status_from_members (S : Converter) (ps : list Person.t)
  (h : HRow.t) (H : Household.t) : Prop :=
  hh_id_of_row h = Ok (Household.hh_id H) /\
  economic_status S (HRow.V_EINK h)
    (filter (fun p => String.eqb (Person.hh p) (Household.hh_id H)) ps)
  = Ok (Household.economic_status H).

(** ** A translator instance and tables for concrete runs

    The theorems below hold for every [Converter]; this instance serves
    the runs on concrete tables. *)

(** A code table with two entries and a fallback member for every other
    code. *)
Definition code_1_2 {A : Type} (one two other : A) (x : pyval) : result A :=
  match x with
  | PInt 1 => Ok one
  | PInt 2 => Ok two
  | _ => Ok other
  end.

(** Modelled from the spec: the code tables of [converter.SrV2018] are not
    in [data.py].  This instance is a translator as the specification
    describes one: every method is total, a code outside its table maps to
    the fallback member, and a household without persons has the status
    UNKNOWN. *)
Definition sample_SrV2018 : Converter := {|
  gender := code_1_2 Gender.M Gender.F Gender.OTHER;
  employment :=
    code_1_2 Employment.JOB_FULL_TIME Employment.JOB_PART_TIME Employment.OTHER;
  yes_no := code_1_2 Availability.YES Availability.NO Availability.UNKNOWN;
  veh_avail := code_1_2 Availability.YES Availability.NO Availability.UNKNOWN;
  parking_position :=
    code_1_2 ParkingPosition.PRIVATE ParkingPosition.PUBLIC ParkingPosition.NA;
  economic_status := fun code persons =>
    match persons with
    | [] => Ok EconomicStatus.UNKNOWN
    | [_] => code_1_2 EconomicStatus.MEDIUM EconomicStatus.HIGH
               EconomicStatus.UNKNOWN code
    | _ => code_1_2 EconomicStatus.LOW EconomicStatus.MEDIUM
             EconomicStatus.UNKNOWN code
    end;
  household_type :=
    code_1_2 HouseholdType.SINGLE HouseholdType.MULTI_WO_CHILDREN
      HouseholdType.MULTI_W_CHILDREN;
  trip_mode := code_1_2 TripMode.WALK TripMode.BIKE TripMode.OTHER;
  trip_purpose := code_1_2 Purpose.WORK Purpose.HOME Purpose.OTHER;
  sd_group := fun _ => Ok SourceDestinationGroup.UNKNOWN
|}.

(** No cell of the tables below is a string that [float] is applied to. *)
Definition sample_float_of_str (s : string) : result float := Raise ValueError.

(** A household row with number [hhnr] and income code [eink]. *)
Definition hrow (hhnr eink : Z) : HRow.t :=
  HRow.mk (PInt hhnr) (PFloat 1%float) (PInt 2) (PInt 1) (PInt 0) (PInt 2) (PInt 0)
    (PInt 0) (PInt 0) (PInt 0) (PInt 1) (PInt eink) (PInt 2) (PStr "Berlin").

(** A person row [hhnr]/[pnr] with bike and e-bike availability codes. *)
Definition prow (hhnr pnr bike ebike : Z) : PRow.t :=
  PRow.mk (PInt hhnr) (PInt pnr) (PFloat 1%float) (PInt 30) (PInt 1) (PInt 1)
    (PInt 1) (PInt 1) (PInt 1) (PInt bike) (PInt ebike) (PInt 2) (PInt 1)
    (PInt 1).

(** A trip row [hhnr]/[pnr]/[wnr]. *)
Definition trow (hhnr pnr wnr : Z) : TRow.t :=
  TRow.mk (PInt hhnr) (PInt pnr) (PInt wnr) (PFloat 1%float) (PInt 2) (PInt 480)
    (PInt 20) (PFloat 3.5%float) (PInt 1) (PInt 1) (PInt 1) (PInt 1).

(** One household with two persons and one trip. *)
Definition tables_ok : Tables := {|
  hh_table := [hrow 1 1];
  pp_table := [prow 1 1 2 1; prow 1 2 2 2];
  tt_table := [trow 1 1 1]
|}.

(** Two household rows with the same [HHNR]. *)
Definition tables_dup : Tables := {|
  hh_table := [hrow 1 1; hrow 1 2];
  pp_table := [prow 1 1 2 1];
  tt_table := [trow 1 1 1]
|}.

(** A person of household 2 and a trip of person 3/1, with only
    household 1 and person 2/1 in the tables. *)
Definition tables_dangling : Tables := {|
  hh_table := [hrow 1 1];
  pp_table := [prow 2 1 2 1];
  tt_table := [trow 3 1 1]
|}.

(** [tables_ok] with a person of another household added. *)
Definition tables_ok_more : Tables := {|
  hh_table := [hrow 1 1];
  pp_table := [prow 1 1 2 1; prow 7 1 1 1; prow 1 2 2 2];
  tt_table := [trow 1 1 1]
|}.

(** ** Definitions for the further properties *)

(** The number a digit sequence denotes, after digits worth [acc]. *)
Fixpoint uint_value (d : Decimal.uint) (acc : Z) : Z :=
  match d with
  | Decimal.Nil => acc
  | Decimal.D0 d => uint_value d (10 * acc + 0)
  | Decimal.D1 d => uint_value d (10 * acc + 1)
  | Decimal.D2 d => uint_value d (10 * acc + 2)
  | Decimal.D3 d => uint_value d (10 * acc + 3)
  | Decimal.D4 d => uint_value d (10 * acc + 4)
  | Decimal.D5 d => uint_value d (10 * acc + 5)
  | Decimal.D6 d => uint_value d (10 * acc + 6)
  | Decimal.D7 d => uint_value d (10 * acc + 7)
  | Decimal.D8 d => uint_value d (10 * acc + 8)
  | Decimal.D9 d => uint_value d (10 * acc + 9)
  end.

(** Every character of [s] passes the test [ok]. *)
Fixpoint all_chars (ok : ascii -> bool) (s : string) : bool :=
  match s with
  | EmptyString => true
  | String c rest => ok c && all_chars ok rest
  end.

(** The characters of [str(n)]: a digit or the minus sign. *)
Definition is_decimal_char (c : ascii) : bool :=
  match digit_of c with Some _ => true | None => Ascii.eqb c "-" end.

(** The integer keys of the raw rows, as [int] reads them. *)
Definition hh_keys (d : Tables) : list (result Z) :=
  map (fun h => py_int (HRow.HHNR h)) (hh_table d).

Definition pp_keys (d : Tables) : list (result Z * result Z) :=
  map (fun p => (py_int (PRow.HHNR p), py_int (PRow.PNR p))) (pp_table d).

Definition tt_keys (d : Tables) : list (result Z * result Z * result Z) :=
  map (fun t => (py_int (TRow.HHNR t), py_int (TRow.PNR t),
                 py_int (TRow.WNR t))) (tt_table d).

(** A person row whose age cell is no number. *)
Definition prow_bad_age : PRow.t :=
  PRow.mk (PInt 1) (PInt 3) (PFloat 1) (PStr "n/a") (PInt 1) (PInt 1)
    (PInt 1) (PInt 1) (PInt 1) (PInt 1) (PInt 1) (PInt 2) (PInt 1) (PInt 1).

(** A trip row without a trip number. *)
Definition trow_no_number : TRow.t :=
  TRow.mk (PInt 1) (PInt 1) PNone (PFloat 1) (PInt 2) (PInt 480) (PInt 20)
    (PFloat 3.5) (PInt 1) (PInt 1) (PInt 1) (PInt 1).

(** A household table without rows. *)
Definition tables_no_household : Tables := {|
  hh_table := [];
  pp_table := [prow 1 1 2 1];
  tt_table := [trow 1 1 1]
|}.

(** The columns of the returned frames whose cells are the fields of the
    records as the loops computed them: all but those taken from the raw
    row as they are ([h_weight] and [location] of a Household,
    [t_weight] of a Trip), whose type the frame settles by column. *)
Definition household_cells (H : Household.t) :=
  (Household.hh_id H, Household.n_persons H, Household.n_cars H,
   Household.n_bikes H, Household.n_other_vehicles H,
   Household.car_parking H, Household.economic_status H,
   Household.type H, Household.regionType H).

Definition trip_cells (T : Trip.t) :=
  (Trip.t_id T, Trip.p_id T, Trip.n T, Trip.day_of_week T,
   Trip.departure T, Trip.duration T, Trip.gis_length T,
   Trip.main_mode T, Trip.purpose T, Trip.sd_group T, Trip.valid T).

(** * Properties *)

(** ** Order of binary64 values *)

Lemma SFcompare_lt_le_false (x y z : spec_float) :
  SFleb y x = true -> SFltb x z = true -> SFleb z y = false.
Proof.
  unfold SFleb, SFltb, SFcompare.
  destruct x as [sx|sx| |sx mx ex], y as [sy|sy| |sy my ey],
           z as [sz|sz| |sz mz ez];
    try discriminate; try reflexivity;
    repeat match goal with s : bool |- _ => destruct s end;
    try discriminate; try reflexivity.
  all: change (Pos.compare_cont Eq ?a ?b) with (Pos.compare a b).
  all: repeat match goal with
       | |- context [Z.compare ?a ?b] => destruct (Z.compare_spec a b)
       | |- context [Pos.compare ?a ?b] => destruct (Pos.compare_spec a b)
       end; subst; simpl; intros; try discriminate; try reflexivity; try lia.
Qed.

(** [b <= a < v] excludes [v <= b]. *)
Lemma float_above (a b v : float) :
  (b <=? a)%float = true -> (a <? v)%float = true -> (v <=? b)%float = false.
Proof.
  rewrite !leb_spec, ltb_spec. apply SFcompare_lt_le_false.
Qed.

(** ** The numpy operations, element by element *)

Lemma digitize_right_le (bins : list float) (x : float) :
  (digitize_right bins x <= List.length bins)%nat.
Proof.
  induction bins as [|b rest IH]; simpl; [lia|].
  destruct (x <=? b)%float; lia.
Qed.

Lemma set_item_app (pre : list nat) (x : nat) (t : list nat) (v : nat) :
  set_item (pre ++ x :: t) (List.length pre) v = Ok (pre ++ v :: t).
Proof.
  induction pre as [|h pre IH]; simpl; [reflexivity|].
  rewrite IH. reflexivity.
Qed.

Lemma set_items_where (v : nat) (mask : list bool) :
  forall (pre idx : list nat),
    List.length idx = List.length mask ->
    set_items (pre ++ idx) (where_from (List.length pre) mask) v
    = Ok (pre ++ masked idx mask v).
Proof.
  induction mask as [|b mask IH]; intros pre idx Hlen.
  - destruct idx; [reflexivity | discriminate].
  - destruct idx as [|i idx]; [discriminate|].
    injection Hlen as Hlen. unfold masked. simpl combine. simpl map.
    destruct b; simpl where_from.
    + simpl set_items. rewrite set_item_app. simpl bind.
      specialize (IH (pre ++ [v]) idx Hlen).
      rewrite length_app, Nat.add_1_r, <- app_assoc in IH. simpl in IH.
      rewrite IH, <- app_assoc. reflexivity.
    + specialize (IH (pre ++ [i]) idx Hlen).
      rewrite length_app, Nat.add_1_r, <- app_assoc in IH. simpl in IH.
      rewrite IH, <- app_assoc. reflexivity.
Qed.

(** The masked assignment of [DistanceGroup.cut] never leaves the array,
    and gives each value its [distance_slot]. *)
Lemma zero_group_assignment (bins values : list float) :
  set_items (np_digitize values bins) (np_where (np_le0 values)) O
  = Ok (map (distance_slot bins) values).
Proof.
  unfold np_where.
  change (set_items (np_digitize values bins) (where_from O (np_le0 values)) O)
    with (set_items ([] ++ np_digitize values bins)
            (where_from (List.length (@nil nat)) (np_le0 values)) O).
  rewrite set_items_where.
  - simpl. f_equal. unfold masked, np_digitize, np_le0, distance_slot.
    induction values as [|v values IH]; simpl; [reflexivity|].
    rewrite IH. reflexivity.
  - unfold np_digitize, np_le0. now rewrite !length_map.
Qed.

Lemma np_take_nth {A : Type} (arr : list A) (idx : list nat) (ls : list A) :
  np_take arr idx = Ok ls ->
  forall i k, nth_error idx i = Some k -> nth_error ls i = nth_error arr k.
Proof.
  revert ls. induction idx as [|j idx IH]; intros ls H i k Hi.
  - destruct i; discriminate.
  - simpl in H. destruct (nth_error arr j) as [a|] eqn:Ha; [|discriminate].
    destruct (np_take arr idx) as [l|e]; [|discriminate].
    injection H as <-. destruct i as [|i]; simpl in *.
    + injection Hi as <-. now rewrite Ha.
    + now apply IH.
Qed.

Lemma np_take_in_range {A : Type} (arr : list A) (d : A) (idx : list nat) :
  (forall k, In k idx -> (k < List.length arr)%nat) ->
  np_take arr idx = Ok (map (fun k => nth k arr d) idx).
Proof.
  induction idx as [|j idx IH]; intros H; simpl; [reflexivity|].
  rewrite (nth_error_nth' arr d) by (apply H; now left).
  rewrite IH by (intros k Hk; apply H; now right). reflexivity.
Qed.

Lemma distance_slot_le (bins : list float) (v : float) :
  (distance_slot bins v <= List.length bins)%nat.
Proof.
  unfold distance_slot. destruct (v <=? 0)%float; [lia|].
  apply digitize_right_le.
Qed.

(** [DistanceGroup.cut] returns, and labels each value on its own. *)
Lemma distance_cut_map (values : list float) :
  DistanceGroup.cut values = Ok (map distance_label values).
Proof.
  unfold DistanceGroup.cut, DistanceGroup.cut_with.
  rewrite zero_group_assignment. simpl bind.
  rewrite (np_take_in_range _ DistanceGroup.OVER_100KM).
  - now rewrite map_map.
  - intros k Hk. apply in_map_iff in Hk as [v [<- _]].
    pose proof (distance_slot_le DistanceGroup.bins v) as H.
    simpl in *. lia.
Qed.

(** [DurationGroup.cut] returns, and labels each value on its own. *)
Lemma duration_cut_map (values : list float) :
  DurationGroup.cut values = Ok (map duration_label values).
Proof.
  unfold DurationGroup.cut.
  rewrite (np_take_in_range _ DurationGroup.REST_OF_DAY).
  - unfold np_digitize. now rewrite map_map.
  - intros k Hk. apply in_map_iff in Hk as [v [<- _]].
    pose proof (digitize_right_le DurationGroup.bins v) as H.
    simpl in *. lia.
Qed.

Lemma distance_label_nonpositive (v : float) :
  (v <=? 0)%float = true -> distance_label v = DistanceGroup.ZERO.
Proof.
  intros H. unfold distance_label, distance_slot. now rewrite H.
Qed.

(** Rewrites the tests [v <=? b] of an unfolded [digitize_right]: below the
    lower edge [a] they fail, at the upper edge [Hle] holds. *)
Ltac walk_bins a Hlt Hle :=
  repeat (first
    [ rewrite Hle
    | match goal with
      | |- context [if (?v <=? ?b)%float then _ else _] =>
          rewrite (float_above a b v eq_refl Hlt)
      end ]; cbn iota).

(** One goal per value [0], [1], ..., [n - 1] of [i], and one for the rest. *)
Ltac split_index i n :=
  lazymatch n with
  | O => idtac
  | S ?m => destruct i as [|i]; [|split_index i m]
  end.

(** ** The classifiers *)

(** C1: every value [v <= 0] of a sequence gets the label ZERO from
    [DistanceGroup.cut]; the same holds with any other increasing table of
    bucket boundaries in place of [bins], wherever 0 falls in it. *)
Theorem distance_cut_nonpositive_zero :
  forall (vs : list float) (i : nat) (v : float),
    nth_error vs i = Some v ->
    (v <=? 0)%float = true ->
    (exists ls, DistanceGroup.cut vs = Ok ls /\
                nth_error ls i = Some DistanceGroup.ZERO) /\
    (forall bins ls,
       increasing bins = true ->
       DistanceGroup.cut_with bins vs = Ok ls ->
       nth_error ls i = Some DistanceGroup.ZERO) /\
    (forall bins,
       increasing bins = true ->
       DistanceGroup.cut_with bins [v] = Ok [DistanceGroup.ZERO]).
Proof.
  intros vs i v Hi Hv. repeat split.
  - exists (map distance_label vs). split; [apply distance_cut_map|].
    rewrite nth_error_map, Hi. simpl. now rewrite distance_label_nonpositive.
  - intros bins ls _ H. unfold DistanceGroup.cut_with in H.
    rewrite zero_group_assignment in H. simpl bind in H.
    rewrite (np_take_nth _ _ _ H i O); [reflexivity|].
    rewrite nth_error_map, Hi. simpl. unfold distance_slot. now rewrite Hv.
  - intros bins _. unfold DistanceGroup.cut_with.
    rewrite zero_group_assignment. simpl. unfold distance_slot.
    now rewrite Hv.
Qed.

Lemma distance_cut_nonpositive_zero_witness :
  (exists ls, DistanceGroup.cut [3; -2; 0.7]%float = Ok ls /\
              nth_error ls 1 = Some DistanceGroup.ZERO) /\
  (forall bins ls,
     increasing bins = true ->
     DistanceGroup.cut_with bins [3; -2; 0.7]%float = Ok ls ->
     nth_error ls 1 = Some DistanceGroup.ZERO) /\
  (forall bins,
     increasing bins = true ->
     DistanceGroup.cut_with bins [(-2)%float] = Ok [DistanceGroup.ZERO]).
Proof.
  apply (distance_cut_nonpositive_zero [3; -2; 0.7]%float 1%nat (-2)%float);
    reflexivity.
Defined.

(** C2: a bucket includes its upper edge.  For [bins[i-1] < v <= bins[i]]
    [DistanceGroup.cut([v])] and [DurationGroup.cut([v])] return the label
    number [i] (for the first bucket, [v <= bins[0]] alone), a value above
    the last boundary gets the last label, and the six values of the
    specification get the labels it names. *)
Theorem cut_upper_edge_inclusive :
  (forall v : float,
     (v <=? 0)%float = true ->
     DistanceGroup.cut [v] = Ok [DistanceGroup.ZERO]) /\
  (forall v : float,
     (v <=? 5)%float = true ->
     DurationGroup.cut [v] = Ok [DurationGroup.G_5MIN]) /\
  (forall (i : nat) (v : float),
     (1 <= i < 10)%nat ->
     (nth (i - 1) DistanceGroup.bins 0 <? v)%float = true ->
     (v <=? nth i DistanceGroup.bins 0)%float = true ->
     DistanceGroup.cut [v]
     = Ok [nth i DistanceGroup.members DistanceGroup.OVER_100KM]) /\
  (forall v : float,
     (100 <? v)%float = true ->
     DistanceGroup.cut [v] = Ok [DistanceGroup.OVER_100KM]) /\
  (forall (i : nat) (v : float),
     (1 <= i < 13)%nat ->
     (nth (i - 1) DurationGroup.bins 0 <? v)%float = true ->
     (v <=? nth i DurationGroup.bins 0)%float = true ->
     DurationGroup.cut [v]
     = Ok [nth i DurationGroup.members DurationGroup.REST_OF_DAY]) /\
  (forall v : float,
     (750 <? v)%float = true ->
     DurationGroup.cut [v] = Ok [DurationGroup.REST_OF_DAY]) /\
  DistanceGroup.cut [0.5%float] = Ok [DistanceGroup.G_500M] /\
  DistanceGroup.cut [0.51%float] = Ok [DistanceGroup.G_1KM] /\
  DistanceGroup.cut [150%float] = Ok [DistanceGroup.OVER_100KM] /\
  DurationGroup.cut [5%float] = Ok [DurationGroup.G_5MIN] /\
  DurationGroup.cut [5.0001%float] = Ok [DurationGroup.G_15MIN] /\
  DurationGroup.cut [1000%float] = Ok [DurationGroup.REST_OF_DAY].
Proof.
  split; [|split; [|split; [|split; [|split; [|split]]]]].
  - intros v Hv. rewrite distance_cut_map. simpl map.
    now rewrite distance_label_nonpositive.
  - intros v Hv. rewrite duration_cut_map. simpl map. unfold duration_label.
    cbn [DurationGroup.bins digitize_right]. now rewrite Hv.
  - intros i v Hi Hlt Hle. rewrite distance_cut_map. simpl map.
    unfold distance_label, distance_slot.
    split_index i 10%nat; try lia;
      cbn [nth Nat.sub DistanceGroup.bins] in Hlt, Hle;
      cbn [DistanceGroup.bins digitize_right];
      match type of Hlt with (?a <? _)%float = true => walk_bins a Hlt Hle end;
      reflexivity.
  - intros v Hlt. rewrite distance_cut_map. simpl map.
    unfold distance_label, distance_slot.
    cbn [DistanceGroup.bins digitize_right].
    walk_bins 100%float Hlt Hlt. reflexivity.
  - intros i v Hi Hlt Hle. rewrite duration_cut_map. simpl map.
    unfold duration_label.
    split_index i 13%nat; try lia;
      cbn [nth Nat.sub DurationGroup.bins] in Hlt, Hle;
      cbn [DurationGroup.bins digitize_right];
      match type of Hlt with (?a <? _)%float = true => walk_bins a Hlt Hle end;
      reflexivity.
  - intros v Hlt. rewrite duration_cut_map. simpl map.
    unfold duration_label. cbn [DurationGroup.bins digitize_right].
    walk_bins 750%float Hlt Hlt. reflexivity.
  - vm_compute. repeat split; reflexivity.
Qed.

Lemma cut_upper_edge_inclusive_witness :
  DistanceGroup.cut [2.5%float] = Ok [DistanceGroup.G_3KM] /\
  DistanceGroup.cut [100.5%float] = Ok [DistanceGroup.OVER_100KM] /\
  DurationGroup.cut [45%float] = Ok [DurationGroup.G_60MIN] /\
  DurationGroup.cut [751%float] = Ok [DurationGroup.REST_OF_DAY].
Proof.
  destruct cut_upper_edge_inclusive as (_ & _ & Hd & Hdo & Ht & Hto & _).
  split; [|split; [|split]].
  - apply (Hd 4%nat 2.5%float); [lia | reflexivity | reflexivity].
  - apply (Hdo 100.5%float); reflexivity.
  - apply (Ht 3%nat 45%float); [lia | reflexivity | reflexivity].
  - apply (Hto 751%float); reflexivity.
Defined.

(** C7: classifying a batch equals classifying each value on its own: the
    label at position [i] of [cut(vs)] is the label [cut([vs[i]])]
    returns, for [DistanceGroup] and for [DurationGroup]. *)
Theorem cut_batch_is_per_value :
  forall (vs : list float) (i : nat) (v : float),
    nth_error vs i = Some v ->
    (exists ls l, DistanceGroup.cut vs = Ok ls /\ nth_error ls i = Some l /\
                  DistanceGroup.cut [v] = Ok [l]) /\
    (exists ls l, DurationGroup.cut vs = Ok ls /\ nth_error ls i = Some l /\
                  DurationGroup.cut [v] = Ok [l]).
Proof.
  intros vs i v Hi. split.
  - exists (map distance_label vs), (distance_label v).
    rewrite !distance_cut_map, nth_error_map, Hi. now repeat split.
  - exists (map duration_label vs), (duration_label v).
    rewrite !duration_cut_map, nth_error_map, Hi. now repeat split.
Qed.

Lemma cut_batch_is_per_value_witness :
  (exists ls l, DistanceGroup.cut [0.3; 7; -1; 42]%float = Ok ls /\
                nth_error ls 3 = Some l /\
                DistanceGroup.cut [42%float] = Ok [l]) /\
  (exists ls l, DurationGroup.cut [0.3; 7; -1; 42]%float = Ok ls /\
                nth_error ls 3 = Some l /\
                DurationGroup.cut [42%float] = Ok [l]).
Proof.
  apply (cut_batch_is_per_value [0.3; 7; -1; 42]%float 3%nat 42%float).
  reflexivity.
Defined.

(** C10: [DurationGroup] has no zero bucket: every value [v <= 5], zero and
    the negative values included, gets G_5MIN from [DurationGroup.cut]. *)
Theorem duration_cut_le_5_is_first :
  forall v : float,
    (v <=? 5)%float = true ->
    DurationGroup.cut [v] = Ok [DurationGroup.G_5MIN].
Proof.
  intros v Hv. rewrite duration_cut_map. simpl map. unfold duration_label.
  cbn [DurationGroup.bins digitize_right]. now rewrite Hv.
Qed.

Lemma duration_cut_le_5_is_first_witness :
  DurationGroup.cut [0%float] = Ok [DurationGroup.G_5MIN] /\
  DurationGroup.cut [(-30)%float] = Ok [DurationGroup.G_5MIN] /\
  DurationGroup.cut [neg_infinity] = Ok [DurationGroup.G_5MIN].
Proof.
  split; [|split].
  - apply (duration_cut_le_5_is_first 0%float). reflexivity.
  - apply (duration_cut_le_5_is_first (-30)%float). reflexivity.
  - apply (duration_cut_le_5_is_first neg_infinity). reflexivity.
Defined.

(** ** [pint] *)

Lemma pint_nonnegative (x : pyval) :
  match pint x with Ok n => 0 <= n | Raise _ => True end.
Proof.
  unfold pint. destruct (py_int x) as [n|e]; simpl; [lia | exact I].
Qed.

(** C3, as the code has it: [pint(-5) == 0], [pint(3.7) == 3], a returned
    count is never negative, and [pint("abc")] fails with the built-in
    [ValueError] that [int] raises; it does not return 0. *)
Theorem pint_coercion :
  pint (PInt (-5)) = Ok 0 /\
  pint (PFloat 3.7) = Ok 3 /\
  pint (PStr "abc") = Raise ValueError /\
  (forall x, match pint x with Ok n => 0 <= n | Raise _ => True end).
Proof.
  split; [|split; [|split]]; try (vm_compute; reflexivity).
  exact pint_nonnegative.
Qed.

(** C3, as the specification words it, fails: the exception [pint("abc")]
    raises is not a ValidationError. *)
Lemma pint_abc_is_no_ValidationError :
  pint (PStr "abc") = Raise ValueError /\
  ~ (exists e, pint (PStr "abc") = Raise e /\
               exn_name e = "ValidationError"%string).
Proof.
  split; [vm_compute; reflexivity|].
  intros [e [H Hname]]. vm_compute in H. injection H as <-.
  discriminate Hname.
Qed.

(** ** Results and loops *)

Lemma bind_ok {A B : Type} (r : result A) (k : A -> result B) (b : B) :
  bind r k = Ok b -> exists a, r = Ok a /\ k a = Ok b.
Proof.
  destruct r as [a|e]; simpl; [|discriminate]. intros H. now exists a.
Qed.

(** Splits a hypothesis [x <- r ;; ... = Ok b] into its steps. *)
Ltac unbind H :=
  repeat match type of H with
  | bind _ _ = Ok _ =>
      let a := fresh "a" in
      let E := fresh "E" in
      apply bind_ok in H as [a [E H]]
  end.

Lemma traverse_collect {R A : Type} (f : R -> result A) (rows : list R) :
  traverse f rows
  = match collect f rows with
    | (l, None) => Ok l
    | (_, Some e) => Raise e
    end.
Proof.
  induction rows as [|r rows IH]; simpl; [reflexivity|].
  destruct (f r) as [a|e]; simpl; [|reflexivity].
  rewrite IH. now destruct (collect f rows) as [l [e|]].
Qed.

Lemma traverse_Forall2 {R A : Type} (f : R -> result A) (rows : list R)
  (l : list A) :
  traverse f rows = Ok l -> Forall2 (fun r a => f r = Ok a) rows l.
Proof.
  revert l. induction rows as [|r rows IH]; simpl; intros l H.
  - injection H as <-. constructor.
  - unbind H. injection H as <-. constructor; auto.
Qed.

Lemma Forall2_traverse {R A : Type} (f : R -> result A) (rows : list R)
  (l : list A) :
  Forall2 (fun r a => f r = Ok a) rows l -> traverse f rows = Ok l.
Proof.
  induction 1 as [|r a rows l Hr _ IH]; simpl; [reflexivity|].
  now rewrite Hr, IH.
Qed.

Lemma Forall2_in_left {R A : Type} (P : R -> A -> Prop) (rows : list R)
  (l : list A) :
  Forall2 P rows l -> forall r, In r rows -> exists a, In a l /\ P r a.
Proof.
  induction 1 as [|r0 a0 rows l H0 _ IH]; intros r Hr; [destruct Hr|].
  destruct Hr as [<-|Hr].
  - exists a0. split; [now left | assumption].
  - destruct (IH r Hr) as [a [Ha Hp]]. exists a. split; [now right | assumption].
Qed.

Lemma Forall2_in_right {R A : Type} (P : R -> A -> Prop) (rows : list R)
  (l : list A) :
  Forall2 P rows l -> forall a, In a l -> exists r, In r rows /\ P r a.
Proof.
  induction 1 as [|r0 a0 rows l H0 _ IH]; intros a Ha; [destruct Ha|].
  destruct Ha as [<-|Ha].
  - exists r0. split; [now left | assumption].
  - destruct (IH a Ha) as [r [Hr Hp]]. exists r. split; [now right | assumption].
Qed.

Lemma set_index_ok {A : Type} (l df : list A) :
  set_index l = Ok df -> df = l /\ l <> [].
Proof.
  destruct l; simpl; [discriminate|]. intros H. injection H as <-.
  split; [reflexivity | discriminate].
Qed.

Section Loops.

Variable S : Converter.
Variable float_of_str : string -> result float.

Lemma for_rows_persons (rows : list PRow.t) (s : Store) :
  for_rows rows (fun p => x <- lift (person_of_row S p) ;; append_ps x)%st s
  = (loop_result (snd (collect (person_of_row S) rows)),
     {| data := data s;
        loc_ps := loc_ps s ++ fst (collect (person_of_row S) rows);
        loc_hhs := loc_hhs s; loc_ts := loc_ts s |}).
Proof.
  revert s. induction rows as [|r rows IH]; intros s.
  - simpl. rewrite app_nil_r. now destruct s.
  - simpl. unfold mbind at 1. unfold mbind at 1. unfold lift at 1.
    destruct (person_of_row S r) as [a|e]; simpl.
    + rewrite IH. simpl.
      destruct (collect (person_of_row S) rows) as [l e]. simpl.
      now rewrite <- app_assoc.
    + now rewrite app_nil_r; destruct s.
Qed.

Lemma for_rows_households (rows : list HRow.t) (s : Store) :
  for_rows rows (fun h =>
    ps <- read_ps ;;
    x <- lift (household_of_row S ps h) ;;
    append_hhs x)%st s
  = (loop_result (snd (collect (household_of_row S (loc_ps s)) rows)),
     {| data := data s; loc_ps := loc_ps s;
        loc_hhs :=
          loc_hhs s ++ fst (collect (household_of_row S (loc_ps s)) rows);
        loc_ts := loc_ts s |}).
Proof.
  revert s. induction rows as [|r rows IH]; intros s.
  - simpl. rewrite app_nil_r. now destruct s.
  - simpl. unfold mbind at 1. unfold mbind at 1. unfold read_ps at 1.
    unfold mbind at 1. unfold lift at 1.
    destruct (household_of_row S (loc_ps s) r) as [a|e]; simpl.
    + rewrite IH. simpl.
      destruct (collect (household_of_row S (loc_ps s)) rows) as [l e]. simpl.
      now rewrite <- app_assoc.
    + now rewrite app_nil_r; destruct s.
Qed.

Lemma for_rows_trips (rows : list TRow.t) (s : Store) :
  for_rows rows
    (fun t => x <- lift (trip_of_row S float_of_str t) ;; append_ts x)%st s
  = (loop_result (snd (collect (trip_of_row S float_of_str) rows)),
     {| data := data s; loc_ps := loc_ps s; loc_hhs := loc_hhs s;
        loc_ts := loc_ts s ++ fst (collect (trip_of_row S float_of_str) rows) |}).
Proof.
  revert s. induction rows as [|r rows IH]; intros s.
  - simpl. rewrite app_nil_r. now destruct s.
  - simpl. unfold mbind at 1. unfold mbind at 1. unfold lift at 1.
    destruct (trip_of_row S float_of_str r) as [a|e]; simpl.
    + rewrite IH. simpl.
      destruct (collect (trip_of_row S float_of_str) rows) as [l e]. simpl.
      now rewrite <- app_assoc.
    + now rewrite app_nil_r; destruct s.
Qed.
(** One step of a run: [m ;; k] from the store [s], for each primitive. *)
Lemma run_lift {A B : Type} (r : result A) (k : A -> M B) (s : Store) :
  mbind (lift r) k s
  = match r with Ok a => k a s | Raise e => (Raise e, s) end.
Proof. unfold mbind, lift. now destruct r. Qed.

Lemma run_itertuples_pp {B : Type} (k : list PRow.t -> M B) (s : Store) :
  mbind itertuples_pp k s = k (pp_table (data s)) s.
Proof. reflexivity. Qed.

Lemma run_itertuples_hh {B : Type} (k : list HRow.t -> M B) (s : Store) :
  mbind itertuples_hh k s = k (hh_table (data s)) s.
Proof. reflexivity. Qed.

Lemma run_itertuples_tt {B : Type} (k : list TRow.t -> M B) (s : Store) :
  mbind itertuples_tt k s = k (tt_table (data s)) s.
Proof. reflexivity. Qed.

Lemma run_read_ps {B : Type} (k : list Person.t -> M B) (s : Store) :
  mbind read_ps k s = k (loc_ps s) s.
Proof. reflexivity. Qed.

Lemma run_read_hhs {B : Type} (k : list Household.t -> M B) (s : Store) :
  mbind read_hhs k s = k (loc_hhs s) s.
Proof. reflexivity. Qed.

Lemma run_read_ts {B : Type} (k : list Trip.t -> M B) (s : Store) :
  mbind read_ts k s = k (loc_ts s) s.
Proof. reflexivity. Qed.

Lemma run_assign_ps {B : Type} (l : list Person.t) (k : unit -> M B)
  (s : Store) :
  mbind (assign_ps l) k s
  = k tt {| data := data s; loc_ps := l;
            loc_hhs := loc_hhs s; loc_ts := loc_ts s |}.
Proof. reflexivity. Qed.

Lemma run_assign_hhs {B : Type} (l : list Household.t) (k : unit -> M B)
  (s : Store) :
  mbind (assign_hhs l) k s
  = k tt {| data := data s; loc_ps := loc_ps s;
            loc_hhs := l; loc_ts := loc_ts s |}.
Proof. reflexivity. Qed.

Lemma run_assign_ts {B : Type} (l : list Trip.t) (k : unit -> M B)
  (s : Store) :
  mbind (assign_ts l) k s
  = k tt {| data := data s; loc_ps := loc_ps s;
            loc_hhs := loc_hhs s; loc_ts := l |}.
Proof. reflexivity. Qed.

Lemma run_loop {B : Type} (loop : M unit) (k : unit -> M B) (s s' : Store)
  (e : option exn) :
  loop s = (loop_result e, s') ->
  mbind loop k s
  = match e with None => k tt s' | Some x => (Raise x, s') end.
Proof. unfold mbind. intros ->. now destruct e. Qed.

(** A run from any store: the value depends on the raw frames alone, and
    the raw frames are the same afterwards. *)
Lemma srv_to_standard_run (s : Store) :
  fst (srv_to_standard S float_of_str s)
  = srv_to_standard_value S float_of_str (data s) /\
  data (snd (srv_to_standard S float_of_str s)) = data s.
Proof.
  unfold srv_to_standard, srv_to_standard_value.
  rewrite run_assign_ps, run_itertuples_pp.
  rewrite (run_loop _ _ _ _ _ (for_rows_persons _ _)).
  cbn [data loc_ps loc_hhs loc_ts app]. rewrite traverse_collect.
  destruct (collect (person_of_row S) (pp_table (data s))) as [ps [e|]];
    cbn [fst snd bind]; [split; reflexivity|].
  rewrite run_read_ps, run_lift. cbn [loc_ps].
  destruct (set_index ps) as [df|e]; cbn [bind]; [|split; reflexivity].
  rewrite run_assign_ps, run_assign_hhs, run_itertuples_hh.
  rewrite (run_loop _ _ _ _ _ (for_rows_households _ _)).
  cbn [data loc_ps loc_hhs loc_ts app]. rewrite traverse_collect.
  destruct (collect (household_of_row S df) (hh_table (data s)))
    as [hhs [e|]]; cbn [fst snd bind]; [split; reflexivity|].
  rewrite run_assign_ts, run_itertuples_tt.
  rewrite (run_loop _ _ _ _ _ (for_rows_trips _ _)).
  cbn [data loc_ps loc_hhs loc_ts app]. rewrite traverse_collect.
  destruct (collect (trip_of_row S float_of_str) (tt_table (data s)))
    as [ts [e|]]; cbn [fst snd bind]; [split; reflexivity|].
  rewrite run_read_hhs, run_lift. cbn [loc_hhs].
  destruct (set_index hhs) as [hh_df|e]; cbn [bind]; [|split; reflexivity].
  rewrite run_read_ps, run_read_ts, run_lift. cbn [loc_ps loc_ts].
  destruct (set_index ts) as [t_df|e]; cbn [bind]; split; reflexivity.
Qed.

Lemma call_srv_to_standard_eq (d : Tables) :
  call_srv_to_standard S float_of_str d
  = (srv_to_standard_value S float_of_str d, d).
Proof.
  unfold call_srv_to_standard.
  pose proof (srv_to_standard_run
                {| data := d; loc_ps := []; loc_hhs := []; loc_ts := [] |})
    as [Hv Hd].
  destruct (srv_to_standard S float_of_str _) as [r s]. simpl in *.
  now subst.
Qed.

End Loops.

(** ** What one record takes from its row *)

(** A cell converted twice by [int] gives one number. *)
Ltac merge_ints :=
  repeat match goal with
         | E : py_int ?x = Ok ?a, E' : py_int ?x = Ok ?b |- _ =>
             assert (a = b) by congruence; subst b; clear E'
         | E : py_str ?x = Ok ?a, E' : py_str ?x = Ok ?b |- _ =>
             assert (a = b) by congruence; subst b; clear E'
         end.

(** The identifier of a row, from the conversions of its key cells. *)
Ltac read_keys :=
  merge_ints;
  repeat match goal with
         | E : py_int _ = Ok _ |- _ => rewrite E; cbn [bind]
         | E : py_str _ = Ok _ |- _ => rewrite E; cbn [bind]
         end.

Section Records.

Variable S : Converter.
Variable float_of_str : string -> result float.

Lemma person_of_row_ids (p : PRow.t) (P : Person.t) :
  person_of_row S p = Ok P ->
  p_id_of_row p = Ok (Person.p_id P) /\ hh_of_row p = Ok (Person.hh P).
Proof.
  intros H. unfold person_of_row in H. unbind H. injection H as <-.
  unfold p_id_of_row, hh_of_row. simpl. read_keys.
  split; reflexivity.
Qed.

Lemma person_of_row_bike (p : PRow.t) (P : Person.t) :
  person_of_row S p = Ok P -> bike_or_ebike S p = Ok (Person.bike_avail P).
Proof.
  intros H. unfold person_of_row in H. unbind H. injection H as <-.
  simpl. assumption.
Qed.

Lemma bike_or_ebike_rule (p : PRow.t) (P : Person.t) :
  bike_or_ebike S p = Ok (Person.bike_avail P) -> or_over_yes S p P.
Proof.
  unfold bike_or_ebike, or_over_yes. intros H.
  destruct (veh_avail S (PRow.V_RAD_VERFUEG p)) as [a|e]; [|discriminate].
  simpl in H. destruct a; simpl in H.
  - injection H as <-. split; [reflexivity | congruence].
  - destruct (veh_avail S (PRow.V_ERAD_VERFUEG p)) as [b|e]; [|discriminate].
    simpl in H. destruct b; simpl in H; injection H as <-;
      (split; [intros [?|?]; congruence | congruence]).
  - destruct (veh_avail S (PRow.V_ERAD_VERFUEG p)) as [b|e]; [|discriminate].
    simpl in H. destruct b; simpl in H; injection H as <-;
      (split; [intros [?|?]; congruence | congruence]).
Qed.

Lemma household_of_row_status (ps : list Person.t) (h : HRow.t)
  (H : Household.t) :
  household_of_row S ps h = Ok H -> status_from_members S ps h H.
Proof.
  intros E. unfold household_of_row in E. unbind E. injection E as <-.
  unfold status_from_members, hh_id_of_row. simpl. read_keys.
  split; [reflexivity | assumption].
Qed.

Lemma trip_of_row_ids (t : TRow.t) (T : Trip.t) :
  trip_of_row S float_of_str t = Ok T ->
  t_id_of_row t = Ok (Trip.t_id T) /\ trip_p_id_of_row t = Ok (Trip.p_id T).
Proof.
  intros H. unfold trip_of_row in H. unbind H. injection H as <-.
  unfold t_id_of_row, trip_p_id_of_row. simpl. read_keys.
  split; reflexivity.
Qed.

(** The three collections of a run that returns, row by row. *)
Lemma srv_to_standard_value_ok (d : Tables) (hhs : list Household.t)
  (ps : list Person.t) (ts : list Trip.t) :
  srv_to_standard_value S float_of_str d = Ok (hhs, ps, ts) ->
  converts_rowwise S float_of_str d (hhs, ps, ts).
Proof.
  intros H. unfold srv_to_standard_value in H. unbind H. unfold converts_rowwise.
  injection H as <- <- <-.
  repeat match goal with
         | E : set_index _ = Ok _ |- _ =>
             apply set_index_ok in E as [-> ?]
         | E : traverse _ _ = Ok _ |- _ => apply traverse_Forall2 in E
         end.
  repeat split; assumption.
Qed.

Lemma set_index_nonempty {A : Type} (l : list A) :
  l <> [] -> set_index l = Ok l.
Proof. destruct l; [congruence | reflexivity]. Qed.

(** A run returns as soon as the rows convert and no table is empty. *)
Lemma converts_rowwise_value (d : Tables)
  (out : list Household.t * list Person.t * list Trip.t) :
  converts_rowwise S float_of_str d out ->
  srv_to_standard_value S float_of_str d = Ok out.
Proof.
  destruct out as [[hhs ps] ts]. intros (Hp & Hh & Ht & Nh & Np & Nt).
  unfold srv_to_standard_value.
  rewrite (Forall2_traverse _ _ _ Hp). cbn [bind].
  rewrite (set_index_nonempty _ Np). cbn [bind].
  rewrite (Forall2_traverse _ _ _ Hh). cbn [bind].
  rewrite (Forall2_traverse _ _ _ Ht). cbn [bind].
  rewrite (set_index_nonempty _ Nh). cbn [bind].
  rewrite (set_index_nonempty _ Nt). reflexivity.
Qed.

End Records.

Lemma Forall2_traverse_map {R A B : Type} (f : R -> result A)
  (g : R -> result B) (h : A -> B) (rows : list R) (l : list A) :
  (forall r a, f r = Ok a -> g r = Ok (h a)) ->
  Forall2 (fun r a => f r = Ok a) rows l ->
  traverse g rows = Ok (map h l).
Proof.
  intros Hfg HF. apply Forall2_traverse.
  induction HF as [|r a rows l Hr _ IH]; simpl; constructor; auto.
Qed.

Lemma household_of_row_members (S : Converter) (ps ps' : list Person.t)
  (h : HRow.t) (H : Household.t) :
  household_of_row S ps h = Ok H ->
  select_hh ps' (Household.hh_id H) = select_hh ps (Household.hh_id H) ->
  household_of_row S ps' h = Ok H.
Proof.
  intros E Hsel. pose proof (household_of_row_status S ps h H E) as [Hid _].
  unfold hh_id_of_row in Hid. unfold household_of_row in *.
  destruct (py_int (HRow.HHNR h)) as [n|e]; [|discriminate].
  cbn [bind] in *. rewrite Hid in *. cbn [bind] in *.
  rewrite Hsel. exact E.
Qed.

(** ** The normaliser *)

(** C4, as the code has it: when a run of [srv_to_standard] returns, the
    index column of each returned collection lists the identifiers
    derived from the raw rows, one per row and in row order; raw rows
    with the same derived identifier are then all returned, under that
    identifier. *)
Theorem srv_to_standard_keeps_every_row :
  forall (S : Converter) (float_of_str : string -> result float)
         (d : Tables) (hhs : list Household.t) (ps : list Person.t)
         (ts : list Trip.t),
    fst (call_srv_to_standard S float_of_str d) = Ok (hhs, ps, ts) ->
    traverse hh_id_of_row (hh_table d) = Ok (map Household.hh_id hhs) /\
    traverse p_id_of_row (pp_table d) = Ok (map Person.p_id ps) /\
    traverse t_id_of_row (tt_table d) = Ok (map Trip.t_id ts).
Proof.
  intros S fos d hhs ps ts. rewrite call_srv_to_standard_eq. cbn [fst].
  intros H. apply srv_to_standard_value_ok in H as (Hp & Hh & Ht & _).
  split; [|split].
  - eapply Forall2_traverse_map; [|exact Hh].
    intros r a E. now apply household_of_row_status in E as [? _].
  - eapply Forall2_traverse_map; [|exact Hp].
    intros r a E. now apply person_of_row_ids in E as [? _].
  - eapply Forall2_traverse_map; [|exact Ht].
    intros r a E. now apply trip_of_row_ids in E as [? _].
Qed.

Lemma srv_to_standard_keeps_every_row_witness :
  exists hhs ps ts,
    fst (call_srv_to_standard sample_SrV2018 sample_float_of_str tables_dup)
    = Ok (hhs, ps, ts) /\
    traverse hh_id_of_row (hh_table tables_dup)
    = Ok (map Household.hh_id hhs) /\
    traverse p_id_of_row (pp_table tables_dup) = Ok (map Person.p_id ps) /\
    traverse t_id_of_row (tt_table tables_dup) = Ok (map Trip.t_id ts).
Proof.
  do 3 eexists. split; [vm_compute; reflexivity|].
  apply (srv_to_standard_keeps_every_row sample_SrV2018
           sample_float_of_str tables_dup).
  vm_compute. reflexivity.
Defined.

(** C4, as the specification words it, fails: two household rows with the
    same [HHNR] give no error; the run returns both households under the
    identifier ["1"]. *)
Lemma duplicate_identifier_is_returned :
  hh_id_of_row (hrow 1 1) = Ok "1"%string /\
  hh_id_of_row (hrow 1 2) = Ok "1"%string /\
  exists hhs ps ts,
    call_srv_to_standard sample_SrV2018 sample_float_of_str tables_dup
    = (Ok (hhs, ps, ts), tables_dup) /\
    map Household.hh_id hhs = ["1"; "1"]%string /\
    ~ unique_ids (hhs, ps, ts).
Proof.
  split; [reflexivity|]. split; [reflexivity|].
  do 3 eexists. split; [vm_compute; reflexivity|].
  split; [reflexivity|].
  intros [Hnd _]. simpl in Hnd. inversion Hnd as [|x l Hin _]; subst.
  apply Hin. now left.
Qed.

(** C5, as the code has it: [srv_to_standard] makes no referential check,
    post hoc or per row.  The collections of a run that returns are
    referentially intact exactly when the raw tables are: when the
    household identifier derived from each person row is also derived from
    a household row, and the person identifier derived from each trip row
    is also derived from a person row. *)
Theorem referential_integrity_iff_rows_reference :
  forall (S : Converter) (float_of_str : string -> result float)
         (d : Tables)
         (out : list Household.t * list Person.t * list Trip.t),
    fst (call_srv_to_standard S float_of_str d) = Ok out ->
    (referential_integrity out <-> rows_reference d).
Proof.
  intros S fos d [[hhs ps] ts] H. rewrite call_srv_to_standard_eq in H.
  apply srv_to_standard_value_ok in H as (Hp & Hh & Ht & _).
  unfold referential_integrity, rows_reference. split.
  - intros [HP HT]. split.
    + intros p Hin.
      destruct (Forall2_in_left _ _ _ Hp p Hin) as [P [HinP EP]].
      apply person_of_row_ids in EP as [_ EP].
      specialize (HP P HinP). apply in_map_iff in HP as [H0 [Hid HinH]].
      destruct (Forall2_in_right _ _ _ Hh H0 HinH) as [h [Hinh Eh]].
      apply household_of_row_status in Eh as [Eh _].
      exists h. split; [assumption|]. now rewrite EP, Eh, Hid.
    + intros t Hin.
      destruct (Forall2_in_left _ _ _ Ht t Hin) as [T [HinT ET]].
      apply trip_of_row_ids in ET as [_ ET].
      specialize (HT T HinT). apply in_map_iff in HT as [P [Hid HinP]].
      destruct (Forall2_in_right _ _ _ Hp P HinP) as [p [Hinp Ep]].
      apply person_of_row_ids in Ep as [Ep _].
      exists p. split; [assumption|]. now rewrite ET, Ep, Hid.
  - intros [HP HT]. split.
    + intros P HinP.
      destruct (Forall2_in_right _ _ _ Hp P HinP) as [p [Hinp Ep]].
      apply person_of_row_ids in Ep as [_ Ep].
      destruct (HP p Hinp) as [h [Hinh Eq]].
      destruct (Forall2_in_left _ _ _ Hh h Hinh) as [H0 [HinH Eh]].
      apply household_of_row_status in Eh as [Eh _].
      rewrite Ep, Eh in Eq. injection Eq as ->.
      now apply in_map.
    + intros T HinT.
      destruct (Forall2_in_right _ _ _ Ht T HinT) as [t [Hint Et]].
      apply trip_of_row_ids in Et as [_ Et].
      destruct (HT t Hint) as [p [Hinp Eq]].
      destruct (Forall2_in_left _ _ _ Hp p Hinp) as [P [HinP Ep]].
      apply person_of_row_ids in Ep as [Ep _].
      rewrite Et, Ep in Eq. injection Eq as ->.
      now apply in_map.
Qed.

Lemma referential_integrity_iff_rows_reference_witness :
  exists out,
    fst (call_srv_to_standard sample_SrV2018 sample_float_of_str tables_ok)
    = Ok out /\
    (referential_integrity out <-> rows_reference tables_ok).
Proof.
  eexists. split; [vm_compute; reflexivity|].
  apply (referential_integrity_iff_rows_reference sample_SrV2018
           sample_float_of_str tables_ok).
  vm_compute. reflexivity.
Defined.

(** C5, as the specification words it, fails: a person row of household 2
    and a trip row of person 3/1, with only household 1 and person 2/1 in
    the tables, are returned as they are. *)
Lemma dangling_references_are_returned :
  exists out,
    call_srv_to_standard sample_SrV2018 sample_float_of_str tables_dangling
    = (Ok out, tables_dangling) /\
    map Household.hh_id (fst (fst out)) = ["1"]%string /\
    map Person.hh (snd (fst out)) = ["2"]%string /\
    map Person.p_id (snd (fst out)) = ["2_1"]%string /\
    map Trip.p_id (snd out) = ["3_1"]%string /\
    ~ referential_integrity out.
Proof.
  eexists. split; [vm_compute; reflexivity|].
  repeat (split; [reflexivity|]).
  intros [HP _]. simpl in HP.
  specialize (HP _ (or_introl eq_refl)). simpl in HP.
  destruct HP as [HP|[]]. discriminate HP.
Qed.

(** C8: in a run that returns, the economic status of the Household made
    from a raw household row is what the translator gives for the row's
    income code and the produced Persons whose household identifier is
    that Household's identifier; with any other person collection that
    has the same Persons under that identifier the row gives the same
    Household. *)
Theorem economic_status_from_household_members :
  forall (S : Converter) (float_of_str : string -> result float)
         (d : Tables) (hhs : list Household.t) (ps : list Person.t)
         (ts : list Trip.t),
    fst (call_srv_to_standard S float_of_str d) = Ok (hhs, ps, ts) ->
    Forall2
      (fun h H =>
         status_from_members S ps h H /\
         forall ps' : list Person.t,
           select_hh ps' (Household.hh_id H) = select_hh ps (Household.hh_id H) ->
           household_of_row S ps' h = Ok H)
      (hh_table d) hhs.
Proof.
  intros S fos d hhs ps ts H. rewrite call_srv_to_standard_eq in H.
  apply srv_to_standard_value_ok in H as (_ & Hh & _).
  eapply Forall2_impl; [|exact Hh]. intros h H0 E. split.
  - now apply household_of_row_status.
  - intros ps' Hsel. now apply (household_of_row_members S ps ps').
Qed.

Lemma economic_status_from_household_members_witness :
  exists hhs ps ts,
    fst (call_srv_to_standard sample_SrV2018 sample_float_of_str tables_ok_more)
    = Ok (hhs, ps, ts) /\
    Forall2
      (fun h H =>
         status_from_members sample_SrV2018 ps h H /\
         forall ps' : list Person.t,
           select_hh ps' (Household.hh_id H) = select_hh ps (Household.hh_id H) ->
           household_of_row sample_SrV2018 ps' h = Ok H)
      (hh_table tables_ok_more) hhs.
Proof.
  do 3 eexists. split; [vm_compute; reflexivity|].
  eapply (economic_status_from_household_members sample_SrV2018
            sample_float_of_str tables_ok_more).
  vm_compute. reflexivity.
Defined.

(** C9: in a run that returns, the bike availability of the Person made
    from a raw person row is YES when the translation of the row's bike
    code or of its e-bike code is YES, and the translation of the bike
    code otherwise. *)
Theorem bike_avail_or_over_yes :
  forall (S : Converter) (float_of_str : string -> result float)
         (d : Tables) (hhs : list Household.t) (ps : list Person.t)
         (ts : list Trip.t),
    fst (call_srv_to_standard S float_of_str d) = Ok (hhs, ps, ts) ->
    Forall2 (or_over_yes S) (pp_table d) ps.
Proof.
  intros S fos d hhs ps ts H. rewrite call_srv_to_standard_eq in H.
  apply srv_to_standard_value_ok in H as (Hp & _).
  eapply Forall2_impl; [|exact Hp]. intros p P E.
  now apply bike_or_ebike_rule, person_of_row_bike.
Qed.

Lemma bike_avail_or_over_yes_witness :
  exists hhs ps ts,
    fst (call_srv_to_standard sample_SrV2018 sample_float_of_str tables_ok)
    = Ok (hhs, ps, ts) /\
    Forall2 (or_over_yes sample_SrV2018) (pp_table tables_ok) ps.
Proof.
  do 3 eexists. split; [vm_compute; reflexivity|].
  eapply (bike_avail_or_over_yes sample_SrV2018 sample_float_of_str tables_ok).
  vm_compute. reflexivity.
Defined.

(** ** Concrete runs *)

Example int_of_str_examples :
  map int_of_str ["0012"; "+5"; "-5"; " 12 "; "1_000"; "0_0"; "-0"; "1_2_3"]%string
  = map Ok [12; 5; -5; 12; 1000; 0; 0; 123] /\
  map int_of_str ["- 5"; "+-5"; "+"; "-"; "1 2"; "0x10"; "1e3"; "-_1"; ""; "_1";
                  "1_"; "1__0"]%string
  = repeat (Raise ValueError) 12.
Proof. vm_compute. split; reflexivity. Qed.

(** White space above 127 around a number, and the limit on the digits
    [int] reads and [str] writes. *)
Example int_str_limits_examples :
  int_of_str (String (ascii_of_nat 160) "5") = Ok 5 /\
  int_of_str (String "5" (String (ascii_of_nat 133) "")) = Ok 5 /\
  int_of_str (String (ascii_of_nat 160) "-5") = Ok (-5) /\
  int_of_str (String "-" (String (ascii_of_nat 160) "5")) = Raise ValueError /\
  int_of_str (String (ascii_of_nat 28) "5") = Raise ValueError /\
  int_of_str (String (ascii_of_nat 178) "") = Raise ValueError /\
  int_of_str (string_of_list_ascii (repeat "0"%char 4300%nat)) = Ok 0 /\
  int_of_str (string_of_list_ascii (repeat "0"%char 4301%nat))
  = Raise ValueError /\
  int_of_str (String "-" (string_of_list_ascii (repeat "0"%char 4301%nat)))
  = Raise ValueError /\
  py_str (-50) = Ok "-50"%string /\ py_str 0 = Ok "0"%string.
Proof. vm_compute. repeat split; reflexivity. Qed.

Example py_values_examples :
  float_of_int (2 ^ 53 + 1) = Ok 9007199254740992%float /\
  float_of_int (10 ^ 400) = Raise OverflowError /\
  py_add (PInt (10 ^ 400)) (PFloat 1) = Raise OverflowError /\
  py_add (PBool true) (PInt 1) = Ok (PInt 2) /\
  py_add (PStr "a") (PStr "b") = Ok (PStr "ab") /\
  py_add PNone (PInt 1) = Raise TypeError /\
  py_add (PStr "a") (PInt 1) = Raise TypeError /\
  truthy (PFloat nan) = true /\ py_ne_int (PStr "x") 0 = true /\
  py_ne_int PNone 0 = true /\ py_eq_int (PFloat 1) 1 = true /\
  py_eq_int (PStr "1") 1 = false /\
  map py_str_int [-50; 0; 12] = ["-50"; "0"; "12"]%string.
Proof. vm_compute. repeat split; reflexivity. Qed.

Example source_examples :
  map SourceDestinationGroup.source
    [SourceDestinationGroup.HOME_SHOP; SourceDestinationGroup.WORK_OTHER;
     SourceDestinationGroup.EDU_HOME; SourceDestinationGroup.UNKNOWN]
  = [Purpose.HOME; Purpose.WORK; Purpose.OTHER; Purpose.OTHER].
Proof. reflexivity. Qed.

Example pint_examples :
  pint (PFloat (-3.7)) = Ok 0 /\ pint (PStr " 1_000 ") = Ok 1000 /\
  pint (PStr "3.7") = Raise ValueError /\ pint (PStr "1__0") = Raise ValueError /\
  pint (PFloat nan) = Raise ValueError /\
  pint (PFloat infinity) = Raise OverflowError /\ pint PNone = Raise TypeError.
Proof. vm_compute. repeat split; reflexivity. Qed.

Example tables_are_increasing :
  increasing DistanceGroup.bins = true /\ increasing DurationGroup.bins = true.
Proof. vm_compute. split; reflexivity. Qed.

Example distance_cut_batch :
  DistanceGroup.cut [0.5; -3; 0.51; 150; 0; nan; 100; 2.5]%float
  = Ok [DistanceGroup.G_500M; DistanceGroup.ZERO; DistanceGroup.G_1KM;
        DistanceGroup.OVER_100KM; DistanceGroup.ZERO;
        DistanceGroup.OVER_100KM; DistanceGroup.G_100KM;
        DistanceGroup.G_3KM].
Proof. vm_compute. reflexivity. Qed.

Example duration_cut_batch :
  DurationGroup.cut [5; 5.0001; 1000; 0; -7; 750; nan]%float
  = Ok [DurationGroup.G_5MIN; DurationGroup.G_15MIN;
        DurationGroup.REST_OF_DAY; DurationGroup.G_5MIN;
        DurationGroup.G_5MIN; DurationGroup.G_750MIN;
        DurationGroup.REST_OF_DAY].
Proof. vm_compute. reflexivity. Qed.

(** The two persons of household 1 decide its status; a person of
    household 7 in the table changes nothing. *)
Example status_ignores_other_households :
  map Household.economic_status
    (match fst (call_srv_to_standard sample_SrV2018 sample_float_of_str
                  tables_ok) with
     | Ok (hhs, _, _) => hhs
     | Raise _ => []
     end) = [EconomicStatus.LOW] /\
  map Household.economic_status
    (match fst (call_srv_to_standard sample_SrV2018 sample_float_of_str
                  tables_ok_more) with
     | Ok (hhs, _, _) => hhs
     | Raise _ => []
     end) = [EconomicStatus.LOW].
Proof. vm_compute. split; reflexivity. Qed.

(** An empty table stops the run at [set_index]. *)
Example empty_person_table_raises :
  fst (call_srv_to_standard sample_SrV2018 sample_float_of_str
         {| hh_table := [hrow 1 1]; pp_table := []; tt_table := [trow 1 1 1] |})
  = Raise KeyError.
Proof. vm_compute. reflexivity. Qed.

(** * Further properties *)

(** ** More on the order of binary64 values *)

(** Case analysis on the comparisons of an unfolded [SFcompare]. *)
Ltac sf_cases :=
  unfold SFleb, SFltb, SFeqb, SFcompare;
  repeat match goal with
         | x : spec_float |- _ => destruct x
         end;
  repeat match goal with s : bool |- _ => destruct s end;
  try discriminate; try reflexivity;
  try change (Pos.compare_cont Eq ?a ?b) with (Pos.compare a b);
  repeat match goal with
         | |- context [Z.compare ?a ?b] => destruct (Z.compare_spec a b)
         | |- context [Pos.compare ?a ?b] => destruct (Pos.compare_spec a b)
         end; subst; simpl; intros; try discriminate; try reflexivity; try lia.

Lemma SFleb_trans (x y z : spec_float) :
  SFleb x y = true -> SFleb y z = true -> SFleb x z = true.
Proof. sf_cases. Qed.

Lemma SFleb_false_ltb (x y : spec_float) :
  SFleb x y = false -> SFeqb x x = true -> SFeqb y y = true ->
  SFltb y x = true.
Proof. sf_cases. Qed.

Lemma SFleb_number (x y : spec_float) :
  SFleb x y = true -> SFeqb x x = true.
Proof. sf_cases. Qed.

Lemma SFltb_number (x y : spec_float) :
  SFltb x y = true -> SFeqb y y = true.
Proof. sf_cases. Qed.

Lemma SFleb_refl (x : spec_float) :
  SFeqb x x = true -> SFleb x x = true.
Proof. sf_cases. Qed.

Lemma SFleb_nan (x y : spec_float) :
  SFeqb x x = false -> SFleb x y = false.
Proof. sf_cases. Qed.

Lemma SFltb_nan (x y : spec_float) :
  SFeqb x x = false -> SFltb y x = false.
Proof. sf_cases. Qed.

Lemma float_leb_trans (x y z : float) :
  (x <=? y)%float = true -> (y <=? z)%float = true -> (x <=? z)%float = true.
Proof. rewrite !leb_spec. apply SFleb_trans. Qed.

(** Among numbers, [x <= y] fails only when [y < x]. *)
Lemma float_leb_false_ltb (x y : float) :
  (x <=? y)%float = false -> (x =? x)%float = true -> (y =? y)%float = true ->
  (y <? x)%float = true.
Proof. rewrite leb_spec, ltb_spec, !eqb_spec. apply SFleb_false_ltb. Qed.

Lemma float_leb_number (x y : float) :
  (x <=? y)%float = true -> (x =? x)%float = true.
Proof. rewrite leb_spec, eqb_spec. apply SFleb_number. Qed.

Lemma float_ltb_number (x y : float) :
  (x <? y)%float = true -> (y =? y)%float = true.
Proof. rewrite ltb_spec, eqb_spec. apply SFltb_number. Qed.

Lemma float_leb_refl (x : float) :
  (x =? x)%float = true -> (x <=? x)%float = true.
Proof. rewrite leb_spec, eqb_spec. apply SFleb_refl. Qed.

Lemma float_leb_nan (x y : float) :
  (x =? x)%float = false -> (x <=? y)%float = false.
Proof. rewrite leb_spec, eqb_spec. apply SFleb_nan. Qed.

Lemma float_ltb_nan (x y : float) :
  (x =? x)%float = false -> (y <? x)%float = false.
Proof. rewrite ltb_spec, eqb_spec. apply SFltb_nan. Qed.

(** ** [np.digitize] on an increasing table *)

Lemma increasing_cons (b : float) (rest : list float) :
  increasing (b :: rest) = true ->
  (b =? b)%float = true /\ increasing rest = true /\
  (forall k, (k < List.length rest)%nat -> (b <=? nth k rest 0)%float = true).
Proof.
  revert b. induction rest as [|c rest IH]; intros b H.
  - simpl in H. rewrite andb_true_r in H. repeat split; auto.
    + now rewrite andb_true_r in H.
    + intros k Hk. simpl in Hk. lia.
  - cbn [increasing] in H. fold (increasing (c :: rest)) in H.
    apply andb_prop in H as [H Hrest]. apply andb_prop in H as [Hb Hbc].
    repeat split; auto.
    intros k Hk. destruct k as [|k]; simpl; [assumption|].
    destruct (IH c Hrest) as (_ & _ & Hc).
    apply (float_leb_trans b c); [assumption|]. apply Hc. simpl in Hk. lia.
Qed.

Lemma digitize_right_nan (bins : list float) (x : float) :
  (x =? x)%float = false -> digitize_right bins x = List.length bins.
Proof.
  intros Hx. induction bins as [|b rest IH]; simpl; [reflexivity|].
  now rewrite (float_leb_nan x b Hx), IH.
Qed.

(** The slot of a number [x]: the one whose lower edge is below [x] and
    whose upper edge is not. *)
Lemma digitize_right_iff (bins : list float) (x : float) :
  increasing bins = true -> (x =? x)%float = true ->
  forall i, (i <= List.length bins)%nat ->
    (digitize_right bins x = i <->
     (i = O \/ (nth (i - 1) bins 0 <? x)%float = true) /\
     (i = List.length bins \/ (x <=? nth i bins 0)%float = true)).
Proof.
  intros Hinc Hx. induction bins as [|b rest IH]; intros i Hi.
  - simpl in *. assert (i = O) by lia. subst. intuition.
  - apply increasing_cons in Hinc as (Hb & Hrest & Hle).
    specialize (IH Hrest). cbn [digitize_right].
    destruct (x <=? b)%float eqn:Hxb.
    + split.
      * intros <-. split; [now left | right; exact Hxb].
      * intros [[->|Hlow] _]; [reflexivity|]. exfalso.
        destruct i as [|i]; [simpl in Hlow|].
        -- pose proof (float_above b b x (float_leb_refl b Hb) Hlow). congruence.
        -- simpl in Hlow. rewrite Nat.sub_0_r in Hlow.
           destruct i as [|i]; simpl in Hlow.
           ++ pose proof (float_above b b x (float_leb_refl b Hb) Hlow).
              congruence.
           ++ simpl in Hi.
              pose proof (float_above _ b x (Hle i ltac:(lia)) Hlow).
              congruence.
    + destruct i as [|i].
      * split; [discriminate|]. intros [_ [H|H]]; [discriminate|].
        simpl in H. congruence.
      * simpl in Hi. specialize (IH i ltac:(lia)).
        split.
        -- intros H. injection H as H. apply IH in H as [Hlow Hup].
           split.
           ++ right. simpl. rewrite Nat.sub_0_r.
              destruct i as [|i]; simpl.
              ** now apply float_leb_false_ltb.
              ** destruct Hlow as [Hlow|Hlow]; [discriminate|].
                 simpl in Hlow. now rewrite Nat.sub_0_r in Hlow.
           ++ destruct Hup as [->|Hup]; [now left | right; exact Hup].
        -- intros [Hlow Hup]. f_equal. apply IH. split.
           ++ destruct i as [|i]; [now left|]. right.
              destruct Hlow as [Hlow|Hlow]; [discriminate|].
              simpl in Hlow. simpl. now rewrite Nat.sub_0_r.
           ++ destruct Hup as [Hup|Hup]; [left; simpl in Hup; lia|].
              right. exact Hup.
Qed.

Lemma digitize_right_monotone (bins : list float) (x y : float) :
  (x <=? y)%float = true ->
  (digitize_right bins x <= digitize_right bins y)%nat.
Proof.
  intros Hxy. induction bins as [|b rest IH]; simpl; [lia|].
  destruct (y <=? b)%float eqn:Hy.
  - now rewrite (float_leb_trans x y b Hxy Hy).
  - destruct (x <=? b)%float; lia.
Qed.

(** ** More on the classifiers *)

(** With 0 as first boundary, [np.digitize] already gives slot 0 to every
    [v <= 0]. *)
Lemma distance_slot_digitize (v : float) :
  distance_slot DistanceGroup.bins v = digitize_right DistanceGroup.bins v.
Proof.
  unfold distance_slot. cbn [DistanceGroup.bins digitize_right].
  now destruct (v <=? 0)%float.
Qed.

Lemma distance_members_NoDup : NoDup DistanceGroup.members.
Proof.
  unfold DistanceGroup.members.
  repeat (constructor; [simpl; intuition discriminate|]). constructor.
Qed.

Lemma duration_members_NoDup : NoDup DurationGroup.members.
Proof.
  unfold DurationGroup.members.
  repeat (constructor; [simpl; intuition discriminate|]). constructor.
Qed.

Lemma distance_label_slot (v : float) (i : nat) :
  (i <= 10)%nat ->
  (DistanceGroup.cut [v]
   = Ok [nth i DistanceGroup.members DistanceGroup.OVER_100KM] <->
   digitize_right DistanceGroup.bins v = i).
Proof.
  intros Hi. rewrite distance_cut_map. simpl map. unfold distance_label.
  rewrite distance_slot_digitize.
  pose proof (digitize_right_le DistanceGroup.bins v) as Hs. simpl in Hs.
  split.
  - intros H. injection H as H.
    apply (proj1 (NoDup_nth _ _) distance_members_NoDup) in H;
      simpl; lia.
  - now intros ->.
Qed.

Lemma duration_label_slot (v : float) (i : nat) :
  (i <= 13)%nat ->
  (DurationGroup.cut [v]
   = Ok [nth i DurationGroup.members DurationGroup.REST_OF_DAY] <->
   digitize_right DurationGroup.bins v = i).
Proof.
  intros Hi. rewrite duration_cut_map. simpl map. unfold duration_label.
  pose proof (digitize_right_le DurationGroup.bins v) as Hs. simpl in Hs.
  split.
  - intros H. injection H as H.
    apply (proj1 (NoDup_nth _ _) duration_members_NoDup) in H;
      simpl; lia.
  - now intros ->.
Qed.

(** The slot of [v] in an increasing table, numbers and [nan] alike. *)
Lemma digitize_right_slot (bins : list float) (v : float) (i : nat) :
  increasing bins = true -> (i <= List.length bins)%nat ->
  (digitize_right bins v = i <->
   ((i = O \/ (nth (i - 1) bins 0 <? v)%float = true) /\
    (i = List.length bins \/ (v <=? nth i bins 0)%float = true) /\
    (v =? v)%float = true) \/
   (i = List.length bins /\ (v =? v)%float = false)).
Proof.
  intros Hinc Hi. destruct (v =? v)%float eqn:Hv.
  - rewrite (digitize_right_iff bins v Hinc Hv i Hi). intuition congruence.
  - rewrite (digitize_right_nan bins v Hv). intuition congruence.
Qed.

(** X2: [DistanceGroup.cut([v])] is ZERO exactly for [v <= 0], the label
    number [i] exactly for [bins[i-1] < v <= bins[i]], and OVER_100KM
    exactly for [v > 100] and for [nan]. *)
Theorem distance_cut_exact_buckets :
  forall v : float,
    (DistanceGroup.cut [v] = Ok [DistanceGroup.ZERO] <->
     (v <=? 0)%float = true) /\
    (forall i : nat,
       (1 <= i < 10)%nat ->
       (DistanceGroup.cut [v]
        = Ok [nth i DistanceGroup.members DistanceGroup.OVER_100KM] <->
        (nth (i - 1) DistanceGroup.bins 0 <? v)%float = true /\
        (v <=? nth i DistanceGroup.bins 0)%float = true)) /\
    (DistanceGroup.cut [v] = Ok [DistanceGroup.OVER_100KM] <->
     (100 <? v)%float = true \/ (v =? v)%float = false).
Proof.
  intros v.
  assert (Hinc : increasing DistanceGroup.bins = true) by reflexivity.
  split; [|split].
  - change DistanceGroup.ZERO
      with (nth 0 DistanceGroup.members DistanceGroup.OVER_100KM).
    rewrite distance_label_slot by lia.
    rewrite (digitize_right_slot _ v 0 Hinc) by (simpl; lia).
    simpl. split.
    + intros [(_ & [H|H] & _)|[H _]]; [discriminate | exact H | discriminate].
    + intros H. left. repeat split; [now left | now right |].
      now apply (float_leb_number v 0).
  - intros i Hi. rewrite distance_label_slot by lia.
    rewrite (digitize_right_slot _ v i Hinc) by (simpl; lia).
    simpl List.length. split.
    + intros [(Hlow & Hup & _)|[H _]]; [|lia].
      destruct Hlow as [->|Hlow]; [lia|].
      destruct Hup as [->|Hup]; [lia|]. now split.
    + intros [Hlow Hup]. left. repeat split; [now right | now right |].
      now apply (float_leb_number v _ Hup).
  - change DistanceGroup.OVER_100KM
      with (nth 10 DistanceGroup.members DistanceGroup.OVER_100KM) at 1.
    rewrite distance_label_slot by lia.
    rewrite (digitize_right_slot _ v 10 Hinc) by (simpl; lia).
    simpl. split.
    + intros [([H|H] & _ & _)|[_ H]]; [discriminate | now left | now right].
    + intros [H|H].
      * left. repeat split; [now right | now left |].
        now apply (float_ltb_number 100 v).
      * right. now split.
Qed.

Lemma distance_cut_exact_buckets_witness :
  (DistanceGroup.cut [2.5%float] = Ok [DistanceGroup.G_3KM] <->
   (2 <? 2.5)%float = true /\ (2.5 <=? 3)%float = true) /\
  (DistanceGroup.cut [nan] = Ok [DistanceGroup.OVER_100KM] <->
   (100 <? nan)%float = true \/ (nan =? nan)%float = false).
Proof.
  split.
  - apply (proj1 (proj2 (distance_cut_exact_buckets 2.5%float)) 4%nat). lia.
  - apply (proj2 (proj2 (distance_cut_exact_buckets nan))).
Defined.

(** X3: [DurationGroup.cut([v])] is G_5MIN exactly for [v <= 5], the label
    number [i] exactly for [bins[i-1] < v <= bins[i]], and REST_OF_DAY
    exactly for [v > 750] and for [nan]. *)
Theorem duration_cut_exact_buckets :
  forall v : float,
    (DurationGroup.cut [v] = Ok [DurationGroup.G_5MIN] <->
     (v <=? 5)%float = true) /\
    (forall i : nat,
       (1 <= i < 13)%nat ->
       (DurationGroup.cut [v]
        = Ok [nth i DurationGroup.members DurationGroup.REST_OF_DAY] <->
        (nth (i - 1) DurationGroup.bins 0 <? v)%float = true /\
        (v <=? nth i DurationGroup.bins 0)%float = true)) /\
    (DurationGroup.cut [v] = Ok [DurationGroup.REST_OF_DAY] <->
     (750 <? v)%float = true \/ (v =? v)%float = false).
Proof.
  intros v.
  assert (Hinc : increasing DurationGroup.bins = true) by reflexivity.
  split; [|split].
  - change DurationGroup.G_5MIN
      with (nth 0 DurationGroup.members DurationGroup.REST_OF_DAY).
    rewrite duration_label_slot by lia.
    rewrite (digitize_right_slot _ v 0 Hinc) by (simpl; lia).
    simpl. split.
    + intros [(_ & [H|H] & _)|[H _]]; [discriminate | exact H | discriminate].
    + intros H. left. repeat split; [now left | now right |].
      now apply (float_leb_number v 5).
  - intros i Hi. rewrite duration_label_slot by lia.
    rewrite (digitize_right_slot _ v i Hinc) by (simpl; lia).
    simpl List.length. split.
    + intros [(Hlow & Hup & _)|[H _]]; [|lia].
      destruct Hlow as [->|Hlow]; [lia|].
      destruct Hup as [->|Hup]; [lia|]. now split.
    + intros [Hlow Hup]. left. repeat split; [now right | now right |].
      now apply (float_leb_number v _ Hup).
  - change DurationGroup.REST_OF_DAY
      with (nth 13 DurationGroup.members DurationGroup.REST_OF_DAY) at 1.
    rewrite duration_label_slot by lia.
    rewrite (digitize_right_slot _ v 13 Hinc) by (simpl; lia).
    simpl. split.
    + intros [([H|H] & _ & _)|[_ H]]; [discriminate | now left | now right].
    + intros [H|H].
      * left. repeat split; [now right | now left |].
        now apply (float_ltb_number 750 v).
      * right. now split.
Qed.

Lemma duration_cut_exact_buckets_witness :
  (DurationGroup.cut [45%float] = Ok [DurationGroup.G_60MIN] <->
   (30 <? 45)%float = true /\ (45 <=? 60)%float = true) /\
  (DurationGroup.cut [nan] = Ok [DurationGroup.REST_OF_DAY] <->
   (750 <? nan)%float = true \/ (nan =? nan)%float = false).
Proof.
  split.
  - apply (proj1 (proj2 (duration_cut_exact_buckets 45%float)) 3%nat). lia.
  - apply (proj2 (proj2 (duration_cut_exact_buckets nan))).
Defined.

(** X1: both classifiers return for every sequence of values, with one
    label per value: no index leaves the label array. *)
Theorem cut_one_label_per_value :
  forall vs : list float,
    (exists ls, DistanceGroup.cut vs = Ok ls /\
                List.length ls = List.length vs) /\
    (exists ls, DurationGroup.cut vs = Ok ls /\
                List.length ls = List.length vs).
Proof.
  intros vs. split.
  - exists (map distance_label vs). split; [apply distance_cut_map|].
    apply length_map.
  - exists (map duration_label vs). split; [apply duration_cut_map|].
    apply length_map.
Qed.

(** X4: the classifiers are monotone: of two values [v <= w], [w] gets the
    same label as [v] or a later one. *)
Theorem cut_is_monotone :
  forall v w : float,
    (v <=? w)%float = true ->
    (exists i j : nat,
       (i <= j <= 10)%nat /\
       DistanceGroup.cut [v]
       = Ok [nth i DistanceGroup.members DistanceGroup.OVER_100KM] /\
       DistanceGroup.cut [w]
       = Ok [nth j DistanceGroup.members DistanceGroup.OVER_100KM]) /\
    (exists i j : nat,
       (i <= j <= 13)%nat /\
       DurationGroup.cut [v]
       = Ok [nth i DurationGroup.members DurationGroup.REST_OF_DAY] /\
       DurationGroup.cut [w]
       = Ok [nth j DurationGroup.members DurationGroup.REST_OF_DAY]).
Proof.
  intros v w Hvw. split.
  - exists (digitize_right DistanceGroup.bins v),
           (digitize_right DistanceGroup.bins w).
    pose proof (digitize_right_le DistanceGroup.bins w) as Hw.
    change (List.length DistanceGroup.bins) with 10%nat in Hw.
    pose proof (digitize_right_monotone DistanceGroup.bins v w Hvw) as Hm.
    split; [lia|]. split; apply distance_label_slot; lia.
  - exists (digitize_right DurationGroup.bins v),
           (digitize_right DurationGroup.bins w).
    pose proof (digitize_right_le DurationGroup.bins w) as Hw.
    change (List.length DurationGroup.bins) with 13%nat in Hw.
    pose proof (digitize_right_monotone DurationGroup.bins v w Hvw) as Hm.
    split; [lia|]. split; apply duration_label_slot; lia.
Qed.

Lemma cut_is_monotone_witness :
  (exists i j : nat,
     (i <= j <= 10)%nat /\
     DistanceGroup.cut [0.7%float]
     = Ok [nth i DistanceGroup.members DistanceGroup.OVER_100KM] /\
     DistanceGroup.cut [30%float]
     = Ok [nth j DistanceGroup.members DistanceGroup.OVER_100KM]) /\
  (exists i j : nat,
     (i <= j <= 13)%nat /\
     DurationGroup.cut [0.7%float]
     = Ok [nth i DurationGroup.members DurationGroup.REST_OF_DAY] /\
     DurationGroup.cut [30%float]
     = Ok [nth j DurationGroup.members DurationGroup.REST_OF_DAY]).
Proof. apply (cut_is_monotone 0.7%float 30%float). reflexivity. Defined.

(** X5: with the table as written, whose first boundary is 0, the manual
    ZERO step of [DistanceGroup.cut] changes no index: the result is that
    of [np.digitize] and [np.take] alone. *)
Theorem distance_zero_step_changes_nothing :
  forall vs : list float,
    DistanceGroup.cut vs
    = np_take DistanceGroup.members (np_digitize vs DistanceGroup.bins).
Proof.
  intros vs. unfold DistanceGroup.cut, DistanceGroup.cut_with.
  rewrite zero_group_assignment. cbn [bind]. f_equal.
  unfold np_digitize. apply map_ext. exact distance_slot_digitize.
Qed.

(** X6: [source()] is HOME for the seven HOME_ groups, WORK for WORK_HOME
    and WORK_OTHER, and OTHER for every other group, OTHER_WORK and the
    groups that start at a school, a shop or a childcare included. *)
Theorem source_by_group :
  forall g : SourceDestinationGroup.t,
    (SourceDestinationGroup.source g = Purpose.HOME <->
     In g [SourceDestinationGroup.HOME_WORK;
           SourceDestinationGroup.HOME_CHILDCARE;
           SourceDestinationGroup.HOME_EDU;
           SourceDestinationGroup.HOME_BUSINESS;
           SourceDestinationGroup.HOME_SHOP;
           SourceDestinationGroup.HOME_LEISURE;
           SourceDestinationGroup.HOME_OTHER]) /\
    (SourceDestinationGroup.source g = Purpose.WORK <->
     In g [SourceDestinationGroup.WORK_HOME;
           SourceDestinationGroup.WORK_OTHER]) /\
    (SourceDestinationGroup.source g = Purpose.OTHER <->
     In g [SourceDestinationGroup.CHILDCARE_HOME;
           SourceDestinationGroup.EDU_HOME;
           SourceDestinationGroup.BUSINESS_HOME;
           SourceDestinationGroup.SHOP_HOME;
           SourceDestinationGroup.LEISURE_HOME;
           SourceDestinationGroup.OTHER_HOME;
           SourceDestinationGroup.OTHER_WORK;
           SourceDestinationGroup.OTHER_OTHER;
           SourceDestinationGroup.UNKNOWN]).
Proof.
  intros g. destruct g; vm_compute;
    (split; [|split]); split; intros H;
      solve [ reflexivity | discriminate H | intuition (try discriminate) ].
Qed.

(** ** Decimal strings *)

Lemma parse_string_of_uint (d : Decimal.uint) :
  forall (acc : Z) (prev : bool),
    d <> Decimal.Nil \/ prev = true ->
    parse_digits (NilEmpty.string_of_uint d) acc prev = Some (uint_value d acc).
Proof.
  induction d; intros acc prev H;
    try (cbn [NilEmpty.string_of_uint parse_digits uint_value];
         cbn; apply IHd; now right).
  destruct H as [H | ->]; [now destruct H | reflexivity].
Qed.

Lemma of_uint_acc_value (d : Decimal.uint) :
  forall acc : positive,
    Zpos (Pos.of_uint_acc d acc) = uint_value d (Zpos acc).
Proof.
  induction d; intros acc; cbn [Pos.of_uint_acc uint_value];
    try reflexivity; rewrite IHd; f_equal; lia.
Qed.

Lemma of_uint_value (d : Decimal.uint) :
  Z.of_N (Pos.of_uint d) = uint_value d 0.
Proof.
  induction d; cbn [Pos.of_uint uint_value]; try reflexivity;
    try (cbn [Z.of_N]; rewrite of_uint_acc_value; reflexivity).
  exact IHd.
Qed.

Lemma to_uint_value (p : positive) : uint_value (Pos.to_uint p) 0 = Zpos p.
Proof.
  rewrite <- of_uint_value, DecimalPos.Unsigned.of_to. reflexivity.
Qed.

Lemma string_of_uint_digits (d : Decimal.uint) :
  all_chars is_decimal_char (NilEmpty.string_of_uint d) = true.
Proof. induction d; simpl; auto. Qed.

Lemma all_chars_impl (ok ok' : ascii -> bool) (s : string) :
  (forall c, ok c = true -> ok' c = true) ->
  all_chars ok s = true -> all_chars ok' s = true.
Proof.
  intros Himp. induction s as [|c s IH]; simpl; [reflexivity|].
  intros H. apply andb_prop in H as [Hc Hs]. now rewrite (Himp c Hc), IH.
Qed.

Lemma decimal_char_no_space (c : ascii) :
  is_decimal_char c = true -> negb (is_space c) = true.
Proof.
  destruct c as [[|] [|] [|] [|] [|] [|] [|] [|]]; vm_compute;
    intros H; solve [reflexivity | discriminate H].
Qed.

Lemma decimal_char_no_underscore (c : ascii) :
  is_decimal_char c = true -> negb (Ascii.eqb c "_") = true.
Proof.
  destruct c as [[|] [|] [|] [|] [|] [|] [|] [|]]; vm_compute;
    intros H; solve [reflexivity | discriminate H].
Qed.

Lemma lstrip_no_space (s : string) :
  all_chars (fun c => negb (is_space c)) s = true -> lstrip s = s.
Proof.
  destruct s as [|c s]; simpl; [reflexivity|].
  intros H. apply andb_prop in H as [Hc _].
  now destruct (is_space c).
Qed.

Lemma rev_string_all_chars (ok : ascii -> bool) (s : string) :
  forall acc,
    all_chars ok s = true -> all_chars ok acc = true ->
    all_chars ok (rev_string s acc) = true.
Proof.
  induction s as [|c s IH]; intros acc Hs Hacc; simpl; [assumption|].
  simpl in Hs. apply andb_prop in Hs as [Hc Hs].
  apply IH; [assumption|]. simpl. now rewrite Hc, Hacc.
Qed.

Lemma rev_string_twice (s : string) :
  forall acc acc',
    rev_string (rev_string s acc) acc' = rev_string acc (s ++ acc')%string.
Proof.
  induction s as [|c s IH]; intros acc acc'; simpl; [reflexivity|].
  now rewrite IH.
Qed.

Lemma append_empty (s : string) : (s ++ "")%string = s.
Proof. induction s as [|c s IH]; simpl; [reflexivity | now rewrite IH]. Qed.

Lemma strip_no_space (s : string) :
  all_chars (fun c => negb (is_space c)) s = true -> strip s = s.
Proof.
  intros H. unfold strip. rewrite (lstrip_no_space s H).
  rewrite lstrip_no_space by (apply rev_string_all_chars; auto).
  rewrite rev_string_twice. simpl. apply append_empty.
Qed.

Lemma int_of_str_digits (d : Decimal.uint) :
  d <> Decimal.Nil ->
  int_of_str (NilEmpty.string_of_uint d)
  = if int_max_str_digits <? count_digits (NilEmpty.string_of_uint d)
    then Raise ValueError else Ok (uint_value d 0).
Proof.
  intros Hd. unfold int_of_str. rewrite strip_no_space.
  - destruct d; try (now destruct Hd);
      cbn [NilEmpty.string_of_uint]; cbv beta iota zeta;
      match goal with
      | |- context [parse_digits (String ?c (NilEmpty.string_of_uint ?d))] =>
          set (s := String c (NilEmpty.string_of_uint d))
      end;
      match goal with
      | |- context [uint_value ?u 0] =>
          change s with (NilEmpty.string_of_uint u)
      end;
      rewrite parse_string_of_uint by (left; discriminate); reflexivity.
  - eapply all_chars_impl; [exact decimal_char_no_space|].
    apply string_of_uint_digits.
Qed.

Lemma int_of_str_minus_digits (d : Decimal.uint) :
  d <> Decimal.Nil ->
  int_of_str (String "-" (NilEmpty.string_of_uint d))
  = if int_max_str_digits <? count_digits (NilEmpty.string_of_uint d)
    then Raise ValueError else Ok (- uint_value d 0).
Proof.
  intros Hd. unfold int_of_str. rewrite strip_no_space.
  - cbv beta iota zeta. rewrite parse_string_of_uint by (now left).
    reflexivity.
  - simpl. eapply all_chars_impl; [exact decimal_char_no_space|].
    apply string_of_uint_digits.
Qed.

Lemma string_of_uint_nonnil (d : Decimal.uint) :
  d <> Decimal.Nil ->
  NilZero.string_of_uint d = NilEmpty.string_of_uint d.
Proof. destruct d; [now intros H | reflexivity ..]. Qed.

(** [int(s)] for the decimal string [s] of [n]: [n], within the limit on
    the digits. *)
Lemma int_of_str_py_str_int (n : Z) :
  int_of_str (py_str_int n)
  = if int_max_str_digits <? count_digits (py_str_int n)
    then Raise ValueError else Ok n.
Proof.
  unfold py_str_int. destruct n as [|p|p]; cbn [Z.to_int].
  - reflexivity.
  - pose proof (DecimalPos.Unsigned.to_uint_nonnil p) as Hp.
    cbn [NilZero.string_of_int].
    rewrite (string_of_uint_nonnil _ Hp), int_of_str_digits, to_uint_value
      by assumption.
    reflexivity.
  - pose proof (DecimalPos.Unsigned.to_uint_nonnil p) as Hp.
    cbn [NilZero.string_of_int].
    rewrite (string_of_uint_nonnil _ Hp), int_of_str_minus_digits,
      to_uint_value by assumption.
    reflexivity.
Qed.

(** [str(n)], when it returns, is the decimal string of [n]. *)
Lemma py_str_ok (n : Z) (s : string) : py_str n = Ok s -> s = py_str_int n.
Proof.
  unfold py_str. destruct (int_max_str_digits <? count_digits (py_str_int n));
    [discriminate | now intros [= <-]].
Qed.

(** [int(str(n)) == n], when [str(n)] returns. *)
Lemma int_of_str_py_str (n : Z) (s : string) :
  py_str n = Ok s -> int_of_str s = Ok n.
Proof.
  intros H. pose proof (py_str_ok n s H) as ->. unfold py_str in H.
  rewrite int_of_str_py_str_int.
  destruct (int_max_str_digits <? count_digits (py_str_int n));
    [discriminate | reflexivity].
Qed.

Lemma py_str_int_inj (a b : Z) : py_str_int a = py_str_int b -> a = b.
Proof.
  unfold py_str_int. intros H. apply DecimalZ.to_int_inj.
  assert (Hn : forall n : Z,
             NilZero.int_of_string (NilZero.string_of_int (Z.to_int n))
             = Some (Z.to_int n)).
  { intros n. apply NilZero.isi.
    - destruct n as [|p|p]; cbn [Z.to_int]; try discriminate.
      intros [= E]. exact (DecimalPos.Unsigned.to_uint_nonnil p E).
    - destruct n as [|p|p]; cbn [Z.to_int]; try discriminate.
      intros [= E]. exact (DecimalPos.Unsigned.to_uint_nonnil p E). }
  pose proof (Hn a) as Ha. rewrite H, Hn in Ha. now injection Ha.
Qed.

Lemma py_str_int_chars (n : Z) :
  all_chars is_decimal_char (py_str_int n) = true.
Proof.
  unfold py_str_int. destruct n as [|p|p]; cbn [Z.to_int].
  - reflexivity.
  - cbn [NilZero.string_of_int].
    rewrite string_of_uint_nonnil
      by apply DecimalPos.Unsigned.to_uint_nonnil.
    apply string_of_uint_digits.
  - cbn [NilZero.string_of_int].
    rewrite string_of_uint_nonnil
      by apply DecimalPos.Unsigned.to_uint_nonnil.
    simpl. apply string_of_uint_digits.
Qed.

Lemma py_str_int_no_underscore (n : Z) :
  all_chars (fun c => negb (Ascii.eqb c "_")) (py_str_int n) = true.
Proof.
  eapply all_chars_impl; [exact decimal_char_no_underscore|].
  apply py_str_int_chars.
Qed.

(** Two strings without underscore, each followed by an underscore and a
    rest, are equal only part by part. *)
Lemma underscore_split (s1 : string) :
  forall s2 t1 t2 : string,
    all_chars (fun c => negb (Ascii.eqb c "_")) s1 = true ->
    all_chars (fun c => negb (Ascii.eqb c "_")) s2 = true ->
    (s1 ++ String "_" t1)%string = (s2 ++ String "_" t2)%string ->
    s1 = s2 /\ t1 = t2.
Proof.
  induction s1 as [|c s1 IH]; intros s2 t1 t2 H1 H2 E.
  - destruct s2 as [|c2 s2]; simpl in *.
    + injection E as ->. now split.
    + injection E as <- _. discriminate H2.
  - destruct s2 as [|c2 s2]; simpl in *.
    + injection E as -> _. discriminate H1.
    + injection E as <- E.
      apply andb_prop in H1 as [_ H1]. apply andb_prop in H2 as [_ H2].
      destruct (IH s2 t1 t2 H1 H2 E) as [-> ->]. now split.
Qed.

(** [str(a) + "_" + str(b)] determines [a] and [b]. *)
Lemma pair_id_inj (a b a' b' : Z) :
  (py_str_int a ++ "_" ++ py_str_int b)%string
  = (py_str_int a' ++ "_" ++ py_str_int b')%string ->
  a = a' /\ b = b'.
Proof.
  intros E.
  apply underscore_split in E as [Ea Eb];
    try apply py_str_int_no_underscore.
  split; now apply py_str_int_inj.
Qed.

Lemma triple_id_inj (a b c a' b' c' : Z) :
  (py_str_int a ++ "_" ++ py_str_int b ++ "_" ++ py_str_int c)%string
  = (py_str_int a' ++ "_" ++ py_str_int b' ++ "_" ++ py_str_int c')%string ->
  a = a' /\ b = b' /\ c = c'.
Proof.
  intros E.
  apply underscore_split in E as [Ea Eb];
    try apply py_str_int_no_underscore.
  apply pair_id_inj in Eb as [-> ->].
  apply py_str_int_inj in Ea as ->. now repeat split.
Qed.

(** ** Identifiers *)

Section Identifiers.

Variable S : Converter.
Variable float_of_str : string -> result float.

(** The texts [str] returned, as decimal strings. *)
Ltac str_texts :=
  repeat match goal with
         | E : py_str ?n = Ok ?s |- _ => apply py_str_ok in E; subst s
         end.

Lemma household_of_row_key (ps : list Person.t) (h : HRow.t) (H : Household.t) :
  household_of_row S ps h = Ok H ->
  exists n,
    py_int (HRow.HHNR h) = Ok n /\ py_str n = Ok (Household.hh_id H) /\
    Household.hh_id H = py_str_int n.
Proof.
  intros E. unfold household_of_row in E. unbind E. injection E as <-.
  simpl. eexists. split; [eassumption|]. split; [assumption|].
  now apply py_str_ok.
Qed.

Lemma person_of_row_key (p : PRow.t) (P : Person.t) :
  person_of_row S p = Ok P ->
  exists a b,
    py_int (PRow.HHNR p) = Ok a /\ py_int (PRow.PNR p) = Ok b /\
    Person.hh P = py_str_int a /\
    Person.p_id P = (py_str_int a ++ "_" ++ py_str_int b)%string /\
    py_str a = Ok (Person.hh P).
Proof.
  intros E. unfold person_of_row in E. unbind E. injection E as <-.
  merge_ints. simpl.
  match goal with
  | Ea : py_str ?a = Ok ?sa, Eb : py_str ?b = Ok ?sb |- _ =>
      pose proof (py_str_ok _ _ Ea); pose proof (py_str_ok _ _ Eb);
      exists a, b
  end.
  subst. split; [assumption|]. split; [assumption|].
  split; [reflexivity|]. split; [reflexivity | assumption].
Qed.

Lemma trip_of_row_key (t : TRow.t) (T : Trip.t) :
  trip_of_row S float_of_str t = Ok T ->
  exists a b c,
    py_int (TRow.HHNR t) = Ok a /\ py_int (TRow.PNR t) = Ok b /\
    py_int (TRow.WNR t) = Ok c /\
    Trip.p_id T = (py_str_int a ++ "_" ++ py_str_int b)%string /\
    Trip.t_id T
    = (py_str_int a ++ "_" ++ py_str_int b ++ "_" ++ py_str_int c)%string /\
    Trip.n T = c.
Proof.
  intros E. unfold trip_of_row in E. unbind E. injection E as <-.
  merge_ints. str_texts. simpl. do 3 eexists.
  split; [eassumption|]. split; [eassumption|]. split; [eassumption|].
  split; [reflexivity|]. split; reflexivity.
Qed.

End Identifiers.

Lemma Forall2_map_both {A B A' B' : Type} (R : A' -> B' -> Prop)
  (f : A -> A') (g : B -> B') (l1 : list A) (l2 : list B) :
  Forall2 (fun a b => R (f a) (g b)) l1 l2 ->
  Forall2 R (map f l1) (map g l2).
Proof. induction 1; simpl; constructor; auto. Qed.

(** Lists related element by element through a one-to-one relation are
    duplicate-free together. *)
Lemma Forall2_NoDup {A B : Type} (R : A -> B -> Prop) (l1 : list A)
  (l2 : list B) :
  (forall a b a' b', R a b -> R a' b' -> (a = a' <-> b = b')) ->
  Forall2 R l1 l2 -> (NoDup l1 <-> NoDup l2).
Proof.
  intros Hinj HF. induction HF as [|a b l1 l2 Hab HF IH].
  - split; constructor.
  - rewrite !NoDup_cons_iff, IH.
    assert (Hin : In a l1 <-> In b l2).
    { split; intros Hin.
      - destruct (Forall2_in_left _ _ _ HF a Hin) as [b' [Hb' Hr]].
        now rewrite (proj1 (Hinj a b a b' Hab Hr) eq_refl).
      - destruct (Forall2_in_right _ _ _ HF b Hin) as [a' [Ha' Hr]].
        now rewrite (proj2 (Hinj a b a' b Hab Hr) eq_refl). }
    now rewrite Hin.
Qed.

Lemma string_append_assoc (a b c : string) :
  ((a ++ b) ++ c)%string = (a ++ b ++ c)%string.
Proof. induction a as [|x a IH]; simpl; [reflexivity | now rewrite IH]. Qed.

(** X8: in a run that returns, the identifiers of a collection are
    pairwise different exactly when the integer keys of the raw rows are:
    [int(HHNR)] for households, the pair with [int(PNR)] for persons and
    the triple with [int(WNR)] for trips. *)
Theorem unique_ids_iff_unique_keys :
  forall (S : Converter) (float_of_str : string -> result float)
         (d : Tables)
         (out : list Household.t * list Person.t * list Trip.t),
    fst (call_srv_to_standard S float_of_str d) = Ok out ->
    (unique_ids out <->
     NoDup (hh_keys d) /\ NoDup (pp_keys d) /\ NoDup (tt_keys d)).
Proof.
  intros S fos d [[hhs ps] ts] H. rewrite call_srv_to_standard_eq in H.
  apply srv_to_standard_value_ok in H as (Hp & Hh & Ht & _).
  unfold unique_ids, hh_keys, pp_keys, tt_keys.
  assert (Eh : NoDup (map (fun h => py_int (HRow.HHNR h)) (hh_table d))
               <-> NoDup (map Household.hh_id hhs)).
  { apply (Forall2_NoDup
             (fun k i => exists n, k = Ok n /\ i = py_str_int n)).
    - intros k i k' i' [n [-> ->]] [n' [-> ->]]. split.
      + intros E. injection E as ->. reflexivity.
      + intros E. apply py_str_int_inj in E as ->. reflexivity.
    - apply Forall2_map_both. eapply Forall2_impl; [|exact Hh].
      intros h H0 E. apply household_of_row_key in E as (n & E1 & _ & E2).
      now exists n. }
  assert (Ep : NoDup (map (fun p => (py_int (PRow.HHNR p),
                                     py_int (PRow.PNR p))) (pp_table d))
               <-> NoDup (map Person.p_id ps)).
  { apply (Forall2_NoDup
             (fun k i => exists a b,
                  k = (Ok a, Ok b) /\
                  i = (py_str_int a ++ "_" ++ py_str_int b)%string)).
    - intros k i k' i' [a [b [-> ->]]] [a' [b' [-> ->]]]. split.
      + intros E. injection E as -> ->. reflexivity.
      + intros E. apply pair_id_inj in E as [-> ->]. reflexivity.
    - apply Forall2_map_both. eapply Forall2_impl; [|exact Hp].
      intros p P E.
      apply person_of_row_key in E as (a & b & E1 & E2 & _ & E3 & _).
      exists a, b. now rewrite E1, E2. }
  assert (Et : NoDup (map (fun t => (py_int (TRow.HHNR t),
                                     py_int (TRow.PNR t),
                                     py_int (TRow.WNR t))) (tt_table d))
               <-> NoDup (map Trip.t_id ts)).
  { apply (Forall2_NoDup
             (fun k i => exists a b c,
                  k = (Ok a, Ok b, Ok c) /\
                  i = (py_str_int a ++ "_" ++ py_str_int b ++ "_"
                       ++ py_str_int c)%string)).
    - intros k i k' i' [a [b [c [-> ->]]]] [a' [b' [c' [-> ->]]]]. split.
      + intros E. injection E as -> -> ->. reflexivity.
      + intros E. apply triple_id_inj in E as (-> & -> & ->). reflexivity.
    - apply Forall2_map_both. eapply Forall2_impl; [|exact Ht].
      intros t T E.
      apply (trip_of_row_key S fos) in E
        as (a & b & c & E1 & E2 & E3 & _ & E4 & _).
      exists a, b, c. now rewrite E1, E2, E3. }
  rewrite Eh, Ep, Et. reflexivity.
Qed.

Lemma unique_ids_iff_unique_keys_witness :
  exists out,
    fst (call_srv_to_standard sample_SrV2018 sample_float_of_str tables_ok)
    = Ok out /\
    (unique_ids out <->
     NoDup (hh_keys tables_ok) /\ NoDup (pp_keys tables_ok) /\
     NoDup (tt_keys tables_ok)).
Proof.
  eexists. split; [vm_compute; reflexivity|].
  apply (unique_ids_iff_unique_keys sample_SrV2018 sample_float_of_str
           tables_ok).
  vm_compute. reflexivity.
Defined.

(** X9: the join keys behave as the integer keys do.  A Person carries the
    identifier of a Household exactly when their rows have the same
    [int(HHNR)], and a Trip carries the identifier of a Person exactly when
    their rows have the same [int(HHNR)] and [int(PNR)]. *)
Theorem foreign_keys_match_on_integer_keys :
  forall (S : Converter) (float_of_str : string -> result float)
         (ps : list Person.t) (h : HRow.t) (H : Household.t)
         (p : PRow.t) (P : Person.t) (t : TRow.t) (T : Trip.t),
    household_of_row S ps h = Ok H ->
    person_of_row S p = Ok P ->
    trip_of_row S float_of_str t = Ok T ->
    (Person.hh P = Household.hh_id H <->
     py_int (PRow.HHNR p) = py_int (HRow.HHNR h)) /\
    (Trip.p_id T = Person.p_id P <->
     py_int (TRow.HHNR t) = py_int (PRow.HHNR p) /\
     py_int (TRow.PNR t) = py_int (PRow.PNR p)).
Proof.
  intros S fos ps h H p P t T Eh Ep Et.
  apply household_of_row_key in Eh as (n & Eh & _ & ->).
  apply person_of_row_key in Ep as (a & b & Ea & Eb & -> & -> & _).
  apply (trip_of_row_key S fos) in Et as (a' & b' & c' & Ea' & Eb' & _ & -> & _).
  rewrite Eh, Ea, Eb, Ea', Eb'. split; split.
  - intros E. apply py_str_int_inj in E as ->. reflexivity.
  - intros E. injection E as ->. reflexivity.
  - intros E. apply pair_id_inj in E as [-> ->]. now split.
  - intros [E1 E2]. injection E1 as ->. injection E2 as ->. reflexivity.
Qed.

Lemma foreign_keys_match_on_integer_keys_witness :
  exists H P T,
    (Person.hh P = Household.hh_id H <->
     py_int (PRow.HHNR (prow 1 2 2 2)) = py_int (HRow.HHNR (hrow 1 1))) /\
    (Trip.p_id T = Person.p_id P <->
     py_int (TRow.HHNR (trow 1 1 1)) = py_int (PRow.HHNR (prow 1 2 2 2)) /\
     py_int (TRow.PNR (trow 1 1 1)) = py_int (PRow.PNR (prow 1 2 2 2))).
Proof.
  do 3 eexists.
  apply (foreign_keys_match_on_integer_keys sample_SrV2018
           sample_float_of_str [] (hrow 1 1) _ (prow 1 2 2 2) _ (trow 1 1 1) _);
    vm_compute; reflexivity.
Defined.

(** X7: the household identifiers a run returns are canonical decimal
    integers: [int] reads each one back, and [str] of that integer
    returns the identifier again; the same holds for the household
    identifier every Person carries. *)
Theorem household_ids_are_canonical :
  forall (S : Converter) (float_of_str : string -> result float)
         (d : Tables) (hhs : list Household.t) (ps : list Person.t)
         (ts : list Trip.t),
    fst (call_srv_to_standard S float_of_str d) = Ok (hhs, ps, ts) ->
    Forall (fun H => exists n, py_int (PStr (Household.hh_id H)) = Ok n /\
                               py_str_int n = Household.hh_id H /\
                               py_str n = Ok (Household.hh_id H)) hhs /\
    Forall (fun P => exists n, py_int (PStr (Person.hh P)) = Ok n /\
                               py_str_int n = Person.hh P /\
                               py_str n = Ok (Person.hh P)) ps.
Proof.
  intros S fos d hhs ps ts H. rewrite call_srv_to_standard_eq in H.
  apply srv_to_standard_value_ok in H as (Hp & Hh & _).
  split; apply Forall_forall.
  - intros H0 Hin.
    destruct (Forall2_in_right _ _ _ Hh H0 Hin) as [h [_ E]].
    apply household_of_row_key in E as (n & _ & E & Eid).
    exists n. split; [|split].
    + cbn [py_int]. now apply int_of_str_py_str.
    + now symmetry.
    + exact E.
  - intros P Hin.
    destruct (Forall2_in_right _ _ _ Hp P Hin) as [p [_ E]].
    apply person_of_row_key in E as (a & b & _ & _ & Eid & _ & E).
    exists a. split; [|split].
    + cbn [py_int]. now apply int_of_str_py_str.
    + now symmetry.
    + exact E.
Qed.

Lemma household_ids_are_canonical_witness :
  exists hhs ps ts,
    fst (call_srv_to_standard sample_SrV2018 sample_float_of_str tables_ok)
    = Ok (hhs, ps, ts) /\
    Forall (fun H => exists n, py_int (PStr (Household.hh_id H)) = Ok n /\
                               py_str_int n = Household.hh_id H /\
                               py_str n = Ok (Household.hh_id H)) hhs /\
    Forall (fun P => exists n, py_int (PStr (Person.hh P)) = Ok n /\
                               py_str_int n = Person.hh P /\
                               py_str n = Ok (Person.hh P)) ps.
Proof.
  do 3 eexists. split; [vm_compute; reflexivity|].
  eapply (household_ids_are_canonical sample_SrV2018 sample_float_of_str
            tables_ok).
  vm_compute. reflexivity.
Defined.

(** X10: the identifiers of a run that returns are nested: a Trip's
    [t_id] is its [p_id], an underscore and its trip number [n], and a
    Person's [p_id] is its [hh], an underscore and [int(PNR)] of its row. *)
Theorem identifiers_are_nested :
  forall (S : Converter) (float_of_str : string -> result float)
         (d : Tables) (hhs : list Household.t) (ps : list Person.t)
         (ts : list Trip.t),
    fst (call_srv_to_standard S float_of_str d) = Ok (hhs, ps, ts) ->
    Forall (fun T => Trip.t_id T
                     = (Trip.p_id T ++ "_" ++ py_str_int (Trip.n T))%string) ts /\
    Forall2 (fun p P => exists b, py_int (PRow.PNR p) = Ok b /\
                                  Person.p_id P
                                  = (Person.hh P ++ "_" ++ py_str_int b)%string)
      (pp_table d) ps.
Proof.
  intros S fos d hhs ps ts H. rewrite call_srv_to_standard_eq in H.
  apply srv_to_standard_value_ok in H as (Hp & _ & Ht & _).
  split.
  - apply Forall_forall. intros T Hin.
    destruct (Forall2_in_right _ _ _ Ht T Hin) as [t [_ E]].
    apply (trip_of_row_key S fos) in E
      as (a & b & c & _ & _ & _ & -> & -> & ->).
    now rewrite string_append_assoc.
  - eapply Forall2_impl; [|exact Hp]. intros p P E.
    apply person_of_row_key in E as (a & b & _ & Eb & -> & -> & _).
    now exists b.
Qed.

Lemma identifiers_are_nested_witness :
  exists hhs ps ts,
    fst (call_srv_to_standard sample_SrV2018 sample_float_of_str tables_ok)
    = Ok (hhs, ps, ts) /\
    Forall (fun T => Trip.t_id T
                     = (Trip.p_id T ++ "_" ++ py_str_int (Trip.n T))%string) ts /\
    Forall2 (fun p P => exists b, py_int (PRow.PNR p) = Ok b /\
                                  Person.p_id P
                                  = (Person.hh P ++ "_" ++ py_str_int b)%string)
      (pp_table tables_ok) ps.
Proof.
  do 3 eexists. split; [vm_compute; reflexivity|].
  eapply (identifiers_are_nested sample_SrV2018 sample_float_of_str tables_ok).
  vm_compute. reflexivity.
Defined.

Lemma pint_ok_nonneg (x : pyval) (n : Z) : pint x = Ok n -> 0 <= n.
Proof.
  intros H. pose proof (pint_nonnegative x) as Hn. now rewrite H in Hn.
Qed.

(** X11: every Household of a run that returns has non-negative counts of
    persons, cars, bikes and other vehicles, and the region type 0. *)
Theorem household_counts_are_nonnegative :
  forall (S : Converter) (float_of_str : string -> result float)
         (d : Tables) (hhs : list Household.t) (ps : list Person.t)
         (ts : list Trip.t),
    fst (call_srv_to_standard S float_of_str d) = Ok (hhs, ps, ts) ->
    Forall (fun H => 0 <= Household.n_persons H /\ 0 <= Household.n_cars H /\
                     0 <= Household.n_bikes H /\
                     0 <= Household.n_other_vehicles H /\
                     Household.regionType H = 0) hhs.
Proof.
  intros S fos d hhs ps ts H. rewrite call_srv_to_standard_eq in H.
  apply srv_to_standard_value_ok in H as (_ & Hh & _).
  apply Forall_forall. intros H0 Hin.
  destruct (Forall2_in_right _ _ _ Hh H0 Hin) as [h [_ E]].
  unfold household_of_row in E. unbind E. injection E as <-. simpl.
  repeat match goal with
         | E : pint _ = Ok _ |- _ => apply pint_ok_nonneg in E
         end.
  repeat split; assumption.
Qed.

Lemma household_counts_are_nonnegative_witness :
  exists hhs ps ts,
    fst (call_srv_to_standard sample_SrV2018 sample_float_of_str tables_ok)
    = Ok (hhs, ps, ts) /\
    Forall (fun H => 0 <= Household.n_persons H /\ 0 <= Household.n_cars H /\
                     0 <= Household.n_bikes H /\
                     0 <= Household.n_other_vehicles H /\
                     Household.regionType H = 0) hhs.
Proof.
  do 3 eexists. split; [vm_compute; reflexivity|].
  eapply (household_counts_are_nonnegative sample_SrV2018 sample_float_of_str
            tables_ok).
  vm_compute. reflexivity.
Defined.

(** ** Errors *)

Lemma traverse_app {R A : Type} (f : R -> result A) (l1 l2 : list R) :
  traverse f (l1 ++ l2)
  = (a <- traverse f l1 ;; b <- traverse f l2 ;; Ok (a ++ b))%py.
Proof.
  induction l1 as [|r l1 IH]; simpl.
  - now destruct (traverse f l2).
  - destruct (f r) as [a|e]; simpl; [|reflexivity]. rewrite IH.
    destruct (traverse f l1) as [l|e]; simpl; [|reflexivity].
    now destruct (traverse f l2).
Qed.

(** A loop stops at the first row that raises. *)
Lemma traverse_first_failure {R A : Type} (f : R -> result A)
  (l1 l2 : list R) (r : R) (done : list A) (e : exn) :
  traverse f l1 = Ok done -> f r = Raise e ->
  traverse f (l1 ++ r :: l2) = Raise e.
Proof.
  intros H1 Hr. rewrite traverse_app, H1. simpl. now rewrite Hr.
Qed.

(** X12: a run on tables of which one is empty returns no collections.
    It raises KeyError when the person table is the empty one, and also
    when every row of the three tables converts. *)
Theorem empty_table_raises :
  forall (S : Converter) (float_of_str : string -> result float)
         (d : Tables),
    pp_table d = [] \/ hh_table d = [] \/ tt_table d = [] ->
    (forall out, fst (call_srv_to_standard S float_of_str d) <> Ok out) /\
    (pp_table d = [] ->
     fst (call_srv_to_standard S float_of_str d) = Raise KeyError) /\
    (forall ps hhs ts,
       traverse (person_of_row S) (pp_table d) = Ok ps ->
       traverse (household_of_row S ps) (hh_table d) = Ok hhs ->
       traverse (trip_of_row S float_of_str) (tt_table d) = Ok ts ->
       fst (call_srv_to_standard S float_of_str d) = Raise KeyError).
Proof.
  intros S fos d Hempty. rewrite call_srv_to_standard_eq. cbn [fst].
  split; [|split].
  - intros [[hhs ps] ts] H.
    apply srv_to_standard_value_ok in H as (Hp & Hh & Ht & Nh & Np & Nt).
    destruct Hempty as [E|[E|E]]; rewrite E in *.
    + inversion Hp; subst. now apply Np.
    + inversion Hh; subst. now apply Nh.
    + inversion Ht; subst. now apply Nt.
  - intros E. unfold srv_to_standard_value. now rewrite E.
  - intros ps hhs ts Hp Hh Ht. unfold srv_to_standard_value.
    rewrite Hp. cbn [bind].
    destruct Hempty as [E|[E|E]]; rewrite E in *; simpl in *.
    + injection Hp as <-. reflexivity.
    + injection Hh as <-. destruct ps; simpl; [reflexivity|].
      now rewrite Ht.
    + injection Ht as <-. destruct ps; simpl; [reflexivity|].
      rewrite Hh. simpl. now destruct hhs.
Qed.

Lemma empty_table_raises_witness :
  (forall out,
     fst (call_srv_to_standard sample_SrV2018 sample_float_of_str
            tables_no_household) <> Ok out) /\
  fst (call_srv_to_standard sample_SrV2018 sample_float_of_str
         tables_no_household) = Raise KeyError.
Proof.
  destruct (empty_table_raises sample_SrV2018 sample_float_of_str
              tables_no_household) as (H1 & _ & H3).
  - right. left. reflexivity.
  - split; [exact H1|]. eapply H3; vm_compute; reflexivity.
Defined.

(** X13: the exception of a run is that of the first row that fails, in
    the order persons, households, trips.  A failing person row decides
    whatever the other tables hold; a failing household row decides when
    the person rows convert; a failing trip row decides when the person
    and household rows convert, also when the household table is empty. *)
Theorem first_failing_row_decides :
  forall (S : Converter) (float_of_str : string -> result float)
         (d : Tables) (e : exn),
    (forall l1 p l2 done,
       pp_table d = l1 ++ p :: l2 ->
       traverse (person_of_row S) l1 = Ok done ->
       person_of_row S p = Raise e ->
       fst (call_srv_to_standard S float_of_str d) = Raise e) /\
    (forall ps l1 h l2 done,
       traverse (person_of_row S) (pp_table d) = Ok ps -> ps <> [] ->
       hh_table d = l1 ++ h :: l2 ->
       traverse (household_of_row S ps) l1 = Ok done ->
       household_of_row S ps h = Raise e ->
       fst (call_srv_to_standard S float_of_str d) = Raise e) /\
    (forall ps hhs l1 t l2 done,
       traverse (person_of_row S) (pp_table d) = Ok ps -> ps <> [] ->
       traverse (household_of_row S ps) (hh_table d) = Ok hhs ->
       tt_table d = l1 ++ t :: l2 ->
       traverse (trip_of_row S float_of_str) l1 = Ok done ->
       trip_of_row S float_of_str t = Raise e ->
       fst (call_srv_to_standard S float_of_str d) = Raise e).
Proof.
  intros S fos d e. rewrite call_srv_to_standard_eq. cbn [fst].
  unfold srv_to_standard_value. split; [|split].
  - intros l1 p l2 done E H1 Hp.
    now rewrite E, (traverse_first_failure _ l1 l2 p done e H1 Hp).
  - intros ps l1 h l2 done Hps Np E H1 Hh.
    rewrite Hps. cbn [bind]. rewrite (set_index_nonempty _ Np). cbn [bind].
    now rewrite E, (traverse_first_failure _ l1 l2 h done e H1 Hh).
  - intros ps hhs l1 t l2 done Hps Np Hh E H1 Ht.
    rewrite Hps. cbn [bind]. rewrite (set_index_nonempty _ Np). cbn [bind].
    rewrite Hh. cbn [bind].
    now rewrite E, (traverse_first_failure _ l1 l2 t done e H1 Ht).
Qed.

Lemma first_failing_row_decides_witness :
  fst (call_srv_to_standard sample_SrV2018 sample_float_of_str
         {| hh_table := []; pp_table := [prow 1 1 2 1; prow_bad_age];
            tt_table := [] |}) = Raise ValueError /\
  fst (call_srv_to_standard sample_SrV2018 sample_float_of_str
         {| hh_table := []; pp_table := [prow 1 1 2 1];
            tt_table := [trow 1 1 1; trow_no_number] |})
  = Raise TypeError.
Proof.
  split.
  - eapply (proj1 (first_failing_row_decides sample_SrV2018
                     sample_float_of_str _ ValueError)
              [prow 1 1 2 1] prow_bad_age []); vm_compute; reflexivity.
  - eapply (proj2 (proj2 (first_failing_row_decides sample_SrV2018
                            sample_float_of_str _ TypeError))
              _ [] [trow 1 1 1] _ []); try (vm_compute; reflexivity).
    discriminate.
Defined.

(** ** How runs compose *)

Lemma select_hh_none (ps : list Person.t) (id : string) :
  (forall P, In P ps -> Person.hh P <> id) -> select_hh ps id = [].
Proof.
  intros H. unfold select_hh. induction ps as [|P ps IH]; simpl; [reflexivity|].
  destruct (String.eqb_spec (Person.hh P) id) as [E|_].
  - exfalso. apply (H P); [now left | assumption].
  - apply IH. intros Q HQ. apply H. now right.
Qed.

(** X14: in a run that returns, a Household none of whose identifier any
    Person carries gets the economic status the translator gives for its
    income code and an empty person frame. *)
Theorem household_without_persons :
  forall (S : Converter) (float_of_str : string -> result float)
         (d : Tables) (hhs : list Household.t) (ps : list Person.t)
         (ts : list Trip.t),
    fst (call_srv_to_standard S float_of_str d) = Ok (hhs, ps, ts) ->
    Forall2
      (fun h H =>
         (forall P, In P ps -> Person.hh P <> Household.hh_id H) ->
         economic_status S (HRow.V_EINK h) []
         = Ok (Household.economic_status H))
      (hh_table d) hhs.
Proof.
  intros S fos d hhs ps ts H. rewrite call_srv_to_standard_eq in H.
  apply srv_to_standard_value_ok in H as (_ & Hh & _).
  eapply Forall2_impl; [|exact Hh]. intros h H0 E Hnone.
  apply household_of_row_status in E as [_ E].
  fold (select_hh ps (Household.hh_id H0)) in E.
  now rewrite (select_hh_none _ _ Hnone) in E.
Qed.

Lemma household_without_persons_witness :
  exists hhs ps ts,
    fst (call_srv_to_standard sample_SrV2018 sample_float_of_str
           tables_dangling) = Ok (hhs, ps, ts) /\
    Forall2
      (fun h H =>
         (forall P, In P ps -> Person.hh P <> Household.hh_id H) ->
         economic_status sample_SrV2018 (HRow.V_EINK h) []
         = Ok (Household.economic_status H))
      (hh_table tables_dangling) hhs.
Proof.
  do 3 eexists. split; [vm_compute; reflexivity|].
  eapply (household_without_persons sample_SrV2018 sample_float_of_str
            tables_dangling).
  vm_compute. reflexivity.
Defined.

Lemma traverse_functional {R A : Type} (f : R -> result A) (rows : list R)
  (l l' : list A) :
  Forall2 (fun r a => f r = Ok a) rows l ->
  Forall2 (fun r a => f r = Ok a) rows l' -> l = l'.
Proof.
  intros H H'. apply Forall2_traverse in H, H'. congruence.
Qed.

(** X15: the passes are independent.  Of two runs that return, the
    Persons are the same when the person tables are, the Trips are the
    same when the trip tables are, and the Households are the same when
    the household and person tables are. *)
Theorem passes_are_independent :
  forall (S : Converter) (float_of_str : string -> result float)
         (d d' : Tables) (hhs hhs' : list Household.t)
         (ps ps' : list Person.t) (ts ts' : list Trip.t),
    fst (call_srv_to_standard S float_of_str d) = Ok (hhs, ps, ts) ->
    fst (call_srv_to_standard S float_of_str d') = Ok (hhs', ps', ts') ->
    (pp_table d = pp_table d' -> ps = ps') /\
    (tt_table d = tt_table d' -> ts = ts') /\
    (pp_table d = pp_table d' -> hh_table d = hh_table d' -> hhs = hhs').
Proof.
  intros S fos d d' hhs hhs' ps ps' ts ts' H H'.
  rewrite call_srv_to_standard_eq in H, H'.
  apply srv_to_standard_value_ok in H as (Hp & Hh & Ht & _).
  apply srv_to_standard_value_ok in H' as (Hp' & Hh' & Ht' & _).
  assert (Eps : pp_table d = pp_table d' -> ps = ps').
  { intros E. rewrite E in Hp. exact (traverse_functional _ _ _ _ Hp Hp'). }
  split; [exact Eps|]. split.
  - intros E. rewrite E in Ht. exact (traverse_functional _ _ _ _ Ht Ht').
  - intros Ep E. rewrite E, (Eps Ep) in Hh.
    exact (traverse_functional _ _ _ _ Hh Hh').
Qed.

Lemma passes_are_independent_witness :
  exists hhs hhs' ps ps' ts ts',
    fst (call_srv_to_standard sample_SrV2018 sample_float_of_str tables_ok)
    = Ok (hhs, ps, ts) /\
    fst (call_srv_to_standard sample_SrV2018 sample_float_of_str
           tables_ok_more) = Ok (hhs', ps', ts') /\
    (pp_table tables_ok = pp_table tables_ok_more -> ps = ps') /\
    (tt_table tables_ok = tt_table tables_ok_more -> ts = ts') /\
    (pp_table tables_ok = pp_table tables_ok_more ->
     hh_table tables_ok = hh_table tables_ok_more -> hhs = hhs').
Proof.
  do 6 eexists. split; [vm_compute; reflexivity|].
  split; [vm_compute; reflexivity|].
  apply (passes_are_independent sample_SrV2018 sample_float_of_str
           tables_ok tables_ok_more); vm_compute; reflexivity.
Defined.

(** X16: rows added at the end of the household table and of the trip
    table add their records at the end of the collections: when a run
    returns and the added rows convert, the run on the longer tables
    returns the same Persons, and Households and Trips that agree with
    the earlier ones followed by the records of the added rows in every
    column but the weight and the location, which are taken from the raw
    rows as they are. *)
Theorem appended_rows_append_records :
  forall (S : Converter) (float_of_str : string -> result float)
         (d : Tables) (hhs : list Household.t) (ps : list Person.t)
         (ts : list Trip.t) (more_h : list HRow.t) (more_t : list TRow.t)
         (hhs' : list Household.t) (ts' : list Trip.t),
    fst (call_srv_to_standard S float_of_str d) = Ok (hhs, ps, ts) ->
    traverse (household_of_row S ps) more_h = Ok hhs' ->
    traverse (trip_of_row S float_of_str) more_t = Ok ts' ->
    exists (hhs2 : list Household.t) (ts2 : list Trip.t),
      fst (call_srv_to_standard S float_of_str
             {| hh_table := hh_table d ++ more_h; pp_table := pp_table d;
                tt_table := tt_table d ++ more_t |})
      = Ok (hhs2, ps, ts2) /\
      map household_cells hhs2
      = map household_cells hhs ++ map household_cells hhs' /\
      map trip_cells ts2 = map trip_cells ts ++ map trip_cells ts'.
Proof.
  intros S fos d hhs ps ts more_h more_t hhs' ts' H Hh' Ht'.
  exists (hhs ++ hhs'), (ts ++ ts').
  rewrite call_srv_to_standard_eq in *. cbn [fst] in *.
  apply srv_to_standard_value_ok in H as (Hp & Hh & Ht & Nh & Np & Nt).
  split; [|now rewrite !map_app].
  apply converts_rowwise_value. unfold converts_rowwise. cbn.
  repeat split.
  - exact Hp.
  - apply Forall2_app; [exact Hh | now apply traverse_Forall2].
  - apply Forall2_app; [exact Ht | now apply traverse_Forall2].
  - destruct hhs; [now destruct Nh | discriminate].
  - exact Np.
  - destruct ts; [now destruct Nt | discriminate].
Qed.

Lemma appended_rows_append_records_witness :
  exists hhs ps ts hhs' ts' hhs2 ts2,
    fst (call_srv_to_standard sample_SrV2018 sample_float_of_str
           {| hh_table := hh_table tables_ok ++ [hrow 5 2];
              pp_table := pp_table tables_ok;
              tt_table := tt_table tables_ok ++ [trow 1 2 1; trow 1 2 2] |})
    = Ok (hhs2, ps, ts2) /\
    map household_cells hhs2
    = map household_cells hhs ++ map household_cells hhs' /\
    map trip_cells ts2 = map trip_cells ts ++ map trip_cells ts'.
Proof.
  do 5 eexists.
  eapply (appended_rows_append_records sample_SrV2018 sample_float_of_str
            tables_ok _ _ _ [hrow 5 2] [trow 1 2 1; trow 1 2 2]);
    vm_compute; reflexivity.
Defined.

(** ** [pint] again *)

(** X18: [pint] is stable on its own results: a count [n] it returned is
    returned again by [pint(n)], and by [pint(str(n))] whenever [str(n)]
    returns, that is, while [n] is within the limit on the digits. *)
Theorem pint_is_stable :
  forall (x : pyval) (n : Z),
    pint x = Ok n ->
    pint (PInt n) = Ok n /\
    (forall s : string, py_str n = Ok s -> pint (PStr s) = Ok n).
Proof.
  intros x n H. pose proof (pint_ok_nonneg x n H) as Hn. split.
  - unfold pint. simpl. f_equal. lia.
  - intros s Hs. unfold pint. cbn [py_int].
    rewrite (int_of_str_py_str n s Hs). simpl. f_equal. lia.
Qed.

Lemma pint_is_stable_witness :
  pint (PInt 3) = Ok 3 /\
  (forall s : string, py_str 3 = Ok s -> pint (PStr s) = Ok 3).
Proof. apply (pint_is_stable (PFloat 3.7) 3). vm_compute. reflexivity. Defined.
